(** * webcache: freshness pipeline, Cache-Control parsing and the caching
      transport

    A shallow embedding of the Go package [webcache] (files [header.go],
    [freshness.go], the transport and the HTTP cache wrapper) together with
    the properties its specification states about it.

    Conventions of the embedding.
    - Go's [int] is the 64-bit signed integer; it is a [Z] and every
      operation that can leave the range is wrapped with [wrap64].
    - Go strings are [string]s of bytes. [strings.TrimSpace] works on the
      UTF-8 runes of such a string: it removes the runes with Unicode's
      White_Space property, six of one byte, two of two bytes and seventeen
      of three bytes, and treats every ill-formed byte as a rune that is
      no white space.
    - [time.Time] is an instant, the number of nanoseconds since
      January 1, year 1, 00:00:00 UTC (the zero [time.Time]);
      [time.Duration] is a 64-bit count of nanoseconds.
    - a pair [(T, error)] returned by Go is a sum [error + T].
    - [http.Header] and [CacheControl] are Go maps: [gmap]s. *)

From Stdlib Require Import ZArith Ascii String List Lia Bool.
From stdpp Require Import base option gmap strings list fin_maps.

Local Open Scope string_scope.
Local Open Scope Z_scope.

(** ** Machine integers *)

Definition intSize : Z := 64.
Definition maxInt : Z := 2 ^ (intSize - 1) - 1.
Definition minInt : Z := - 2 ^ (intSize - 1).

(** Two's complement wrap-around of a 64-bit signed operation. *)
Definition wrap64 (z : Z) : Z :=
  (z + 2 ^ (intSize - 1)) mod 2 ^ intSize - 2 ^ (intSize - 1).

Definition inInt (z : Z) : Prop := minInt <= z <= maxInt.

Definition int_sub (a b : Z) : Z := wrap64 (a - b).
Definition int_mul (a b : Z) : Z := wrap64 (a * b).

(** ** The errors of the package ([header.go], lines 11-20), the error of
       [http.ParseTime] and the errors of the outbound transport *)

Inductive error : Type :=
  | ErrorInvalidMaxAge
  | ErrorMaxAgeNotFound
  | ErrorInvalidAge
  | ErrorAgeNotFound
  | ErrorInvalidResponseDate
  | ErrorInvalidExpireDate
  | TimeParseError
  | TransportError (msg : string).

(** ** Standard-library functions on strings *)

Definition byteOf (c : ascii) : Z := Z.of_nat (nat_of_ascii c).

(** The white-space runes of one byte: tab, line feed, vertical tab, form
    feed, carriage return and space. *)
Definition isSpace (c : ascii) : bool :=
  let n := Z.of_nat (nat_of_ascii c) in
  ((9 <=? n) && (n <=? 13)) || (n =? 32).

Definition isDigit (c : ascii) : bool :=
  let n := Z.of_nat (nat_of_ascii c) in
  (48 <=? n) && (n <=? 57).

Definition digitVal (c : ascii) : Z := Z.of_nat (nat_of_ascii c) - 48.

Definition isEmpty (s : string) : bool :=
  match s with EmptyString => true | String _ _ => false end.

(** [strings.Split(s, sep)] for a separator of one byte: the pieces between
    the separators, never an empty list. *)
Fixpoint Split (sep : ascii) (s : string) : list string :=
  match s with
  | EmptyString => [EmptyString]
  | String c s' =>
      if Ascii.eqb c sep then EmptyString :: Split sep s'
      else match Split sep s' with
           | p :: ps => String c p :: ps
           | [] => [String c EmptyString]
           end
  end.

(** The white-space runes of two bytes, [U+0085] and [U+00A0]
    ([unicode.IsSpace], the Latin-1 cases), as their UTF-8 bytes. *)
Definition isSpace2 (c1 c2 : ascii) : bool :=
  let a := byteOf c1 in
  let b := byteOf c2 in
  (a =? 194) && ((b =? 133) || (b =? 160)).

(** The white-space runes of three bytes ([unicode.White_Space] above
    Latin-1): [U+1680], [U+2000] to [U+200A], [U+2028], [U+2029], [U+202F],
    [U+205F] and [U+3000], as their UTF-8 bytes. *)
Definition isSpace3 (c1 c2 c3 : ascii) : bool :=
  let a := byteOf c1 in
  let b := byteOf c2 in
  let c := byteOf c3 in
  ((a =? 225) && (b =? 154) && (c =? 128))
  || ((a =? 226) && (b =? 128)
      && (((128 <=? c) && (c <=? 138)) || (c =? 168) || (c =? 169)
          || (c =? 175)))
  || ((a =? 226) && (b =? 129) && (c =? 159))
  || ((a =? 227) && (b =? 128) && (c =? 128)).

(** The text is the UTF-8 encoding of exactly one white-space rune. *)
Definition isSpaceRune (s : string) : bool :=
  match s with
  | String c1 EmptyString => isSpace c1
  | String c1 (String c2 EmptyString) => isSpace2 c1 c2
  | String c1 (String c2 (String c3 EmptyString)) => isSpace3 c1 c2 c3
  | _ => false
  end.

(** The first rune of the text ([utf8.DecodeRuneInString]) is white
    space. *)
Definition startsWithSpace (s : string) : bool :=
  match s with
  | String c1 r1 =>
      isSpace c1
      || match r1 with
         | String c2 r2 =>
             isSpace2 c1 c2
             || match r2 with
                | String c3 _ => isSpace3 c1 c2 c3
                | EmptyString => false
                end
         | EmptyString => false
         end
  | EmptyString => false
  end.

(** [strings.TrimLeftFunc(s, unicode.IsSpace)]: the runes are decoded from
    the left and dropped while they are white space. *)
Fixpoint trimLeft (s : string) : string :=
  match s with
  | EmptyString => EmptyString
  | String c1 r1 =>
      if isSpace c1 then trimLeft r1
      else match r1 with
           | EmptyString => s
           | String c2 r2 =>
               if isSpace2 c1 c2 then trimLeft r2
               else match r2 with
                    | EmptyString => s
                    | String c3 r3 =>
                        if isSpace3 c1 c2 c3 then trimLeft r3 else s
                    end
           end
  end.

(** [strings.TrimRightFunc(s, unicode.IsSpace)]: the runes are decoded from
    the right ([utf8.DecodeLastRuneInString]) and dropped while they are
    white space. With the tail already trimmed to [r], the byte [c] goes
    exactly when [c] and [r] together are one white-space rune. *)
Fixpoint trimRight (s : string) : string :=
  match s with
  | EmptyString => EmptyString
  | String c s' =>
      let r := trimRight s' in
      if isSpaceRune (String c r) then EmptyString else String c r
  end.

(** [strings.TrimSpace]: its fast path for ASCII and its fall back to
    [TrimFunc] and [TrimRightFunc] give the same text, the one without the
    leading and the trailing white-space runes. *)
Definition TrimSpace (s : string) : string := trimRight (trimLeft s).

(** A byte of ASCII that is no white space: such a byte is part of no
    white-space rune. *)
Definition plainByte (c : ascii) : bool :=
  (byteOf c <? 128) && negb (isSpace c).

Fixpoint parseDigits (s : string) (acc : Z) : option Z :=
  match s with
  | EmptyString => Some acc
  | String c s' =>
      if isDigit c then parseDigits s' (acc * 10 + digitVal c) else None
  end.

(** [strconv.Atoi]: an optional sign, then at least one decimal digit and
    nothing else; a value outside [int] is an error as well. *)
Definition Atoi (s : string) : option Z :=
  let unsigned (neg : bool) (t : string) : option Z :=
    if isEmpty t then None
    else match parseDigits t 0 with
         | Some n =>
             let v := if neg then - n else n in
             if (minInt <=? v) && (v <=? maxInt) then Some v else None
         | None => None
         end in
  match s with
  | EmptyString => None
  | String c t =>
      if Ascii.eqb c "-"%char then unsigned true t
      else if Ascii.eqb c "+"%char then unsigned false t
      else unsigned false s
  end.

(** ** Time *)

Definition Time : Type := Z.
Definition Duration : Type := Z.

Definition Second : Duration := 1000000000.

(** [t.Add(d)] is exact here: a [Duration] spans less than 293 years, far
    from the bounds of what a [time.Time] can hold.  [After] and [Before]
    compare instants. *)
Definition Time_IsZero (t : Time) : bool := t =? 0.
Definition Time_After (t u : Time) : bool := u <? t.
Definition Time_Before (t u : Time) : bool := t <? u.
Definition Time_Add (t : Time) (d : Duration) : Time := t + d.

(** [type Clock interface { Now() time.Time }]: the reading a call gets. *)
Record Clock : Type := { Now : Time }.

(** ** Headers ([http.Header] is [map[string][]string]) *)

Abbreviation http_Header := (gmap string (list string)).

(** [h.Get(key)] for a key in canonical form ("Age", "Date", "Expires",
    "X-Cache"): the first value stored under it, or the empty string. *)
Definition Header_Get (h : http_Header) (key : string) : string :=
  match h !! key with
  | Some (v :: _) => v
  | _ => ""
  end.

(** ** A calendar date in the preferred HTTP format

    [http.ParseTime] is a function of the standard library; the development
    is parametric in it (see [Externals] below).  The concrete examples use
    [parseTimeFormat], which reads the first layout [http.ParseTime] tries,
    [http.TimeFormat] = "Mon, 02 Jan 2006 15:04:05 GMT", in its strict
    29-byte form.  Every string it accepts is read by [http.ParseTime] as the
    same instant; the empty string (an absent header) is rejected by both. *)

Definition isLeap (y : Z) : bool :=
  ((y mod 4 =? 0) && negb (y mod 100 =? 0)) || (y mod 400 =? 0).

Definition daysIn (y m : Z) : Z :=
  if m =? 2 then (if isLeap y then 29 else 28)
  else if (m =? 4) || (m =? 6) || (m =? 9) || (m =? 11) then 30 else 31.

(** Days from 0001-01-01 to the given date of the proleptic Gregorian
    calendar. *)
Definition daysFromCivil (y m d : Z) : Z :=
  let y' := if m <=? 2 then y - 1 else y in
  let era := y' / 400 in
  let yoe := y' - era * 400 in
  let mp := if 2 <? m then m - 3 else m + 9 in
  let doy := (153 * mp + 2) / 5 + d - 1 in
  let doe := yoe * 365 + yoe / 4 - yoe / 100 + doy in
  era * 146097 + doe - 306.

Definition monthOfName (s : string) : option Z :=
  if String.eqb s "Jan" then Some 1 else if String.eqb s "Feb" then Some 2
  else if String.eqb s "Mar" then Some 3 else if String.eqb s "Apr" then Some 4
  else if String.eqb s "May" then Some 5 else if String.eqb s "Jun" then Some 6
  else if String.eqb s "Jul" then Some 7 else if String.eqb s "Aug" then Some 8
  else if String.eqb s "Sep" then Some 9 else if String.eqb s "Oct" then Some 10
  else if String.eqb s "Nov" then Some 11 else if String.eqb s "Dec" then Some 12
  else None.

Definition isDayName (s : string) : bool :=
  String.eqb s "Mon" || String.eqb s "Tue" || String.eqb s "Wed"
  || String.eqb s "Thu" || String.eqb s "Fri" || String.eqb s "Sat"
  || String.eqb s "Sun".

(** A field of exactly [n] decimal digits at offset [i]. *)
Definition digitsAt (i n : nat) (s : string) : option Z :=
  let f := substring i n s in
  if Nat.eqb (String.length f) n then parseDigits f 0 else None.

Definition parseTimeFormat (s : string) : option Time :=
  if negb (Nat.eqb (String.length s) 29) then None
  else if negb (isDayName (substring 0 3 s)) then None
  else if negb (String.eqb (substring 3 2 s) ", ") then None
  else if negb (String.eqb (substring 7 1 s) " ") then None
  else if negb (String.eqb (substring 11 1 s) " ") then None
  else if negb (String.eqb (substring 16 1 s) " ") then None
  else if negb (String.eqb (substring 19 1 s) ":") then None
  else if negb (String.eqb (substring 22 1 s) ":") then None
  else if negb (String.eqb (substring 25 4 s) " GMT") then None
  else
    match digitsAt 5 2 s, monthOfName (substring 8 3 s), digitsAt 12 4 s,
          digitsAt 17 2 s, digitsAt 20 2 s, digitsAt 23 2 s with
    | Some d, Some m, Some y, Some hh, Some mm, Some ss =>
        if (1 <=? d) && (d <=? daysIn y m) && (hh <? 24) && (mm <? 60)
           && (ss <? 60)
        then Some ((((daysFromCivil y m d * 24 + hh) * 60 + mm) * 60 + ss)
                   * Second)
        else None
    | _, _, _, _, _, _ => None
    end.

(** ** [header.go]: the directive set *)

Abbreviation CacheControl := (gmap string string).

Definition cacheControlKeyMaxAge : string := "max-age".
Definition cacheControlKeyPublic : string := "public".
Definition cacheControlKeyPrivate : string := "private".

Definition MaxAge (c : CacheControl) : error + Z :=
  match c !! cacheControlKeyMaxAge with
  | None => inl ErrorMaxAgeNotFound
  | Some v =>
      match Atoi v with
      | None => inl ErrorInvalidMaxAge
      | Some maxAge => inr maxAge
      end
  end.

Definition Public (c : CacheControl) : bool :=
  bool_decide (is_Some (c !! cacheControlKeyPublic)).

Definition Private (c : CacheControl) : bool :=
  bool_decide (is_Some (c !! cacheControlKeyPrivate)).

(** Modelled from the spec: the accessors [NoStore()] and [NoCache()] of the
    directive set are defined in a file of the package that is not covered
    here; the specification makes them boolean presence checks, like [Public]
    and [Private] above, and the tests name the directives [no-store] and
    [no-cache]. *)
Definition NoStore (c : CacheControl) : bool :=
  bool_decide (is_Some (c !! "no-store")).

Definition NoCache (c : CacheControl) : bool :=
  bool_decide (is_Some (c !! "no-cache")).

Definition ageFromHeader (h : http_Header) : error + Z :=
  match Atoi (Header_Get h "Age") with
  | None => inl ErrorInvalidMaxAge
  | Some age => inr age
  end.

Definition splitCacheControl (s : string) : list string :=
  Split ","%char (TrimSpace s).

Definition splitCacheControlKeyValue (s : string) : list string :=
  Split "="%char (TrimSpace s).

(** The body of the innermost loop of [newCacheControl]: one token. *)
Definition addDirective (cc : CacheControl) (vvv : string) : CacheControl :=
  let kv := splitCacheControlKeyValue vvv in
  let cc := if Nat.eqb (length kv) 2
            then <[default "" (kv !! 0%nat) := default "" (kv !! 1%nat)]> cc
            else cc in
  if Nat.eqb (length kv) 1
  then <[default "" (kv !! 0%nat) := ""]> cc
  else cc.

(** The loop over the values [v] of one header key. *)
Definition addHeaderValues (cc : CacheControl) (v : list string)
  : CacheControl :=
  foldl (fun cc vv => foldl addDirective cc (splitCacheControl vv)) cc v.

(** [newCacheControl] ranges over the whole header map, in the unspecified
    order of a Go map, and skips every key but "Cache-Control". *)
Definition newCacheControl (h : http_Header) : CacheControl :=
  map_fold (fun k v cc =>
              if String.eqb k "Cache-Control" then addHeaderValues cc v
              else cc)
           ∅ h.

(** ** The parser as the specification words it

    "Splits each header occurrence on commas, trims whitespace, splits each
    token on the first [=] into name/value; value-less tokens are recorded as
    present with an empty value"; later occurrences overwrite earlier ones. *)

(** The text before the first [sep] and, when there is one, the text after
    it. *)
Fixpoint cutFirst (sep : ascii) (s : string) : string * option string :=
  match s with
  | EmptyString => (EmptyString, None)
  | String c s' =>
      if Ascii.eqb c sep then (EmptyString, Some s')
      else let '(name, value) := cutFirst sep s' in (String c name, value)
  end.

Fixpoint countByte (sep : ascii) (s : string) : nat :=
  match s with
  | EmptyString => O
  | String c s' => if Ascii.eqb c sep then S (countByte sep s')
                   else countByte sep s'
  end.

Definition directiveName (token : string) : string :=
  fst (cutFirst "="%char token).

Definition directiveValue (token : string) : string :=
  default "" (snd (cutFirst "="%char token)).

Definition recordDirective_spec (cc : CacheControl) (token : string)
  : CacheControl :=
  <[directiveName token := directiveValue token]> cc.

Definition tokens_spec (occurrence : string) : list string :=
  map TrimSpace (Split ","%char occurrence).

Definition occurrences (h : http_Header) : list string :=
  default [] (h !! "Cache-Control").

Definition newCacheControl_spec (h : http_Header) : CacheControl :=
  foldl recordDirective_spec ∅ (concat (map tokens_spec (occurrences h))).

(** The same parser, except that a token is recorded only when it holds at
    most one [=]. *)
Definition wellFormedToken (token : string) : bool :=
  Nat.leb (countByte "="%char token) 1.

Definition recordDirective_guarded (cc : CacheControl) (token : string)
  : CacheControl :=
  if wellFormedToken token then recordDirective_spec cc token else cc.

Definition newCacheControl_guarded (h : http_Header) : CacheControl :=
  foldl recordDirective_guarded ∅ (concat (map tokens_spec (occurrences h))).

(** ** [freshness.go]: the three classifications *)

Inductive Freshness : Type :=
  | FreshnessFresh
  | FreshnessStale
  | FreshnesTransparent.

Definition freshnessFromMaxAge (maxAge : Z) (responseDated : Time)
    (clock : Clock) : Freshness :=
  if maxAge <=? 0 then FreshnessStale
  else if Time_IsZero responseDated then FreshnessStale
  else if Time_After (Now clock)
            (Time_Add responseDated (int_mul maxAge Second))
  then FreshnessStale
  else FreshnessFresh.

Definition freshnessFromExpire (expireTime responseDated : Time)
  : Freshness :=
  if Time_IsZero expireTime then FreshnesTransparent
  else if Time_Before expireTime responseDated then FreshnessStale
  else FreshnessFresh.

Definition freshnessFromAge (age maxAge : Z) : Freshness :=
  if 0 <? int_sub maxAge age then FreshnessFresh else FreshnessStale.

(** [type freshnessChecker interface { Freshness(ctx, header, cc) }]: an
    interface of one method is the method; the context is not used by any
    implementation. *)
Definition freshnessChecker : Type :=
  http_Header -> CacheControl -> error + Freshness.

Definition is_err {A : Type} (x : error + A) : bool :=
  match x with inl _ => true | inr _ => false end.

(** ** Requests, responses and the world a round trip runs in *)

Record Request : Type := {
  Method : string;
  URL : string;
  Request_Header : http_Header;
}.

Record Response : Type := {
  StatusCode : Z;
  Header : http_Header;
  Body : string;
}.

(** A write the storage backend was asked to do. *)
Inductive StorageOp : Type :=
  | OpSet (key : string) (value : Response)
  | OpDelete (key : string).

(** The storage backend (keyed by cache key), the writes it was asked to do
    so far, and the requests that went out to the origin so far. *)
Record World : Type := {
  storage : gmap string Response;
  journal : list StorageOp;
  sent : list Request;
}.

Definition withSent (w : World) (out : list Request) : World :=
  {| storage := storage w; journal := journal w; sent := out |}.

(** [http.RoundTripper]: the answer of the origin may depend on what was
    sent before.  A round trip has the list of requests sent so far as its
    only state: the storage is out of the reach of the origin. *)
Definition RoundTripper : Type := list Request -> Request -> error + Response.

Definition RoundTripper_RoundTrip (rt : RoundTripper) (r : Request)
    (out : list Request) : (error + Response) * list Request :=
  (rt out r, (out ++ [r])%list).

Definition isCached (r : Response) : bool :=
  String.eqb (Header_Get (Header r) "X-Cache") "HIT".

(** Modelled from the spec: [withCacheHitHeader] is defined in a file of the
    package that is not covered here.  It sets the cache-hit marker, the
    sentinel header that [isCached] reads and the tests look for. *)
Definition withCacheHitHeader (h : http_Header) : http_Header :=
  <["X-Cache" := ["HIT"]]> h.

Definition setHeader (r : Request) (key value : string) : Request :=
  {| Method := Method r; URL := URL r;
     Request_Header := <[key := [value]]> (Request_Header r) |}.

(** Modelled from the spec: the conditional re-fetch of section 4.3, which
    attaches, when available, the validator tokens of the stored entry. *)
Definition conditionalRequest (stored : Response) (r : Request) : Request :=
  let etag := Header_Get (Header stored) "Etag" in
  let lastModified := Header_Get (Header stored) "Last-Modified" in
  let r := if isEmpty etag then r else setHeader r "If-None-Match" etag in
  if isEmpty lastModified then r
  else setHeader r "If-Modified-Since" lastModified.

Definition StatusNotModified : Z := 304.

(** Modelled from the spec: [newResponseValidator(rt).Validate] is defined in
    a file of the package that is not covered here.  Section 4.3: exactly one
    outbound fetch; "not modified" keeps the stored entry and tags it as a
    hit; any other answer replaces it; a failed fetch hands the error on.
    The validator is built from the round tripper alone
    ([newResponseValidator(t.rt)]), so its only state is the list of requests
    sent. *)
Definition Validate (rt : RoundTripper) (stored : Response) (r : Request)
    (out : list Request) : (error + Response) * list Request :=
  let '(res, out1) :=
    RoundTripper_RoundTrip rt (conditionalRequest stored r) out in
  match res with
  | inl err => (inl err, out1)
  | inr fresh =>
      if StatusCode fresh =? StatusNotModified
      then (inr {| StatusCode := StatusCode stored;
                   Header := withCacheHitHeader (Header stored);
                   Body := Body stored |}, out1)
      else (inr fresh, out1)
  end.

(** [type Transport struct]; its [cache] field is the storage of the
    [World]. *)
Record Transport : Type := {
  clock : Clock;
  rt : RoundTripper;
  freshnessChecker_of : freshnessChecker;
  shouldCachePrivateResponses : bool;
}.

Definition TransportOption : Type := Transport -> Transport.

Definition WithClock (c : Clock) : TransportOption :=
  fun t => {| clock := c; rt := rt t;
              freshnessChecker_of := freshnessChecker_of t;
              shouldCachePrivateResponses := shouldCachePrivateResponses t |}.

Definition CachePrivateResponse (v : bool) : TransportOption :=
  fun t => {| clock := clock t; rt := rt t;
              freshnessChecker_of := freshnessChecker_of t;
              shouldCachePrivateResponses := v |}.

(** Modelled from the spec: [NoCacheEquivalent()] is defined in a file of
    the package that is not covered here, and the specification leaves its
    directive combination a configurable predicate; this is the instance it
    names, a mandatory-revalidate directive with a max-age of zero or less.
    The development below holds for every instance. *)
Definition NoCacheEquivalent_revalidate (c : CacheControl) : bool :=
  (bool_decide (is_Some (c !! "must-revalidate"))
   || bool_decide (is_Some (c !! "proxy-revalidate")))
  && match MaxAge c with
     | inr maxAge => maxAge <=? 0
     | inl _ => false
     end.

(** Modelled from the spec: [IsPresent()] is defined in a file of the package
    that is not covered here; a directive set read from no Cache-Control
    header at all is empty.  The development below holds for every
    instance. *)
Definition IsPresent_nonempty (c : CacheControl) : bool :=
  negb (bool_decide (c = ∅)).

(** Modelled from the spec: [buildCacheKey] is defined in a file of the
    package that is not covered here; section 4.5 makes the key a pure
    function of the method and the absolute URL.  The development below holds
    for every instance. *)
Definition buildCacheKey_method_url (r : Request) : string :=
  Method r ++ " " ++ URL r.

(** What the modelled files link against: [http.ParseTime] of the standard
    library, and the functions of the package that they call without
    defining them.  Every definition and every property below is stated for
    an arbitrary instance. *)
Class Externals : Type := {
  ParseTime : string -> option Time;
  NoCacheEquivalent : CacheControl -> bool;
  IsPresent : CacheControl -> bool;
  buildCacheKey : Request -> string;
}.

(** The instance the concrete examples run with. *)
Definition exampleExternals : Externals := {|
  ParseTime := parseTimeFormat;
  NoCacheEquivalent := NoCacheEquivalent_revalidate;
  IsPresent := IsPresent_nonempty;
  buildCacheKey := buildCacheKey_method_url;
|}.

Section Webcache.

Context {ext : Externals}.

Definition timeFromHeader (h : http_Header) (key : string) : error + Time :=
  match ParseTime (Header_Get h key) with
  | None => inl TimeParseError
  | Some v => inr v
  end.

Definition expiresFromHeader (h : http_Header) : error + Time :=
  match timeFromHeader h "Expires" with
  | inl _ => inl ErrorInvalidExpireDate
  | inr v => inr v
  end.

Definition dateFromHeader (h : http_Header) : error + Time :=
  match timeFromHeader h "Date" with
  | inl _ => inl ErrorInvalidResponseDate
  | inr v => inr v
  end.

(** *** The chain of checkers ([freshness.go], lines 85-181) *)

Definition maxAgeFreshnessChecker (next : freshnessChecker) (clock : Clock)
  : freshnessChecker :=
  fun header cacheControlHeader =>
    match MaxAge cacheControlHeader with
    | inl _ => next header cacheControlHeader
    | inr maxAge =>
        match dateFromHeader header with
        | inl _ => next header cacheControlHeader
        | inr date => inr (freshnessFromMaxAge maxAge date clock)
        end
    end.

Definition expireFreshnessChecker (next : freshnessChecker)
  : freshnessChecker :=
  fun header cacheControlHeader =>
    match expiresFromHeader header with
    | inl _ => next header cacheControlHeader
    | inr expires =>
        match dateFromHeader header with
        | inl _ => next header cacheControlHeader
        | inr date => inr (freshnessFromExpire expires date)
        end
    end.

Definition ageFreshnessChecker (next : freshnessChecker)
  : freshnessChecker :=
  fun header cacheControlHeader =>
    match MaxAge cacheControlHeader with
    | inl _ => next header cacheControlHeader
    | inr maxAge =>
        match ageFromHeader header with
        | inl _ => next header cacheControlHeader
        | inr age => inr (freshnessFromAge age maxAge)
        end
    end.

Definition noCacheFreshness (next : freshnessChecker) : freshnessChecker :=
  fun header cacheControlHeader =>
    if NoCache cacheControlHeader then inr FreshnessStale
    else if NoCacheEquivalent cacheControlHeader then inr FreshnessStale
    else next header cacheControlHeader.

Definition transparentFreshness : freshnessChecker :=
  fun _ _ => inr FreshnesTransparent.

Definition newFreshnerChecker (clock : Clock) : freshnessChecker :=
  noCacheFreshness
    (ageFreshnessChecker
       (maxAgeFreshnessChecker
          (expireFreshnessChecker transparentFreshness) clock)).

(** *** The HTTP cache wrapper over the storage backend *)

Definition HTTPCache_Get (r : Request) (w : World) : option Response :=
  storage w !! buildCacheKey r.

Definition HTTPCache_Set (r : Request) (response : Response) (w : World)
  : World :=
  {| storage := <[buildCacheKey r := response]> (storage w);
     journal := journal w ++ [OpSet (buildCacheKey r) response];
     sent := sent w |}.

Definition HTTPCache_Delete (r : Request) (w : World) : World :=
  {| storage := delete (buildCacheKey r) (storage w);
     journal := journal w ++ [OpDelete (buildCacheKey r)];
     sent := sent w |}.

(** *** The transport *)

(** [NewTransport]: the default clock is the real one, the options run in
    order, and the checker is built from the clock they leave (until then
    the field holds no checker; any value stands for it here). *)
Definition NewTransport (realClock : Clock) (transport : RoundTripper)
    (opts : list TransportOption) : Transport :=
  let t := {| clock := realClock; rt := transport;
              freshnessChecker_of := transparentFreshness;
              shouldCachePrivateResponses := false |} in
  let t := foldl (fun t o => o t) t opts in
  {| clock := clock t; rt := rt t;
     freshnessChecker_of := newFreshnerChecker (clock t);
     shouldCachePrivateResponses := shouldCachePrivateResponses t |}.

Definition Transport_roundTripWithCachedResponse (t : Transport)
    (response : Response) (r : Request) (w : World)
  : (error + Response) * World :=
  let cacheControl := newCacheControl (Header response) in
  match freshnessChecker_of t (Header response) cacheControl with
  | inl err => (inl err, w)
  | inr FreshnessFresh =>
      (inr {| StatusCode := StatusCode response;
              Header := withCacheHitHeader (Header response);
              Body := Body response |}, w)
  | inr FreshnessStale =>
      let '(res, out1) := Validate (rt t) response r (sent w) in
      let w1 := withSent w out1 in
      match res with
      | inl err => (inl err, w1)
      | inr response =>
          if NoStore cacheControl
          then (inr response, HTTPCache_Delete r w1)
          else if isCached response then (inr response, w1)
          else (inr response, HTTPCache_Set r response w1)
      end
  | inr FreshnesTransparent =>
      let '(res, out1) := RoundTripper_RoundTrip (rt t) r (sent w) in
      (res, withSent w out1)
  end.

Definition Transport_RoundTrip (t : Transport) (r : Request) (w : World)
  : (error + Response) * World :=
  match HTTPCache_Get r w with
  | Some response => Transport_roundTripWithCachedResponse t response r w
  | None =>
      let '(res, out1) := RoundTripper_RoundTrip (rt t) r (sent w) in
      let w1 := withSent w out1 in
      match res with
      | inl err => (inl err, w1)
      | inr response =>
          let cacheControl := newCacheControl (Header response) in
          if negb (IsPresent cacheControl) then (inr response, w1)
          else if NoStore cacheControl then (inr response, w1)
          else if NoCache cacheControl || NoCacheEquivalent cacheControl
          then (inr response, w1)
          else if negb (shouldCachePrivateResponses t)
                  && Private cacheControl
          then (inr response, w1)
          else (inr response, HTTPCache_Set r response w1)
      end
  end.

End Webcache.

(** ** Concrete inputs of the examples *)

Definition exampleDate : string := "Thu, 01 Jan 2026 00:00:00 GMT".

(** The instant [exampleDate] names: 63902822400 seconds after the zero
    time (1767225600 seconds after the Unix epoch). *)
Definition exampleInstant : Time := 63902822400 * Second.

Definition clockAt (t : Time) : Clock := {| Now := t |}.

Definition headerNoCache : http_Header :=
  {[ "Cache-Control" := ["no-cache, max-age=120"]; "Date" := [exampleDate] ]}.

Definition headerMaxAgeNoDate : http_Header :=
  {[ "Cache-Control" := ["max-age=120"] ]}.

Definition headerMaxAge (seconds : string) : http_Header :=
  {[ "Cache-Control" := ["max-age=" ++ seconds]; "Date" := [exampleDate] ]}.

Definition headerDateOnly : http_Header := {[ "Date" := [exampleDate] ]}.

Definition headerExpiresOnly : http_Header :=
  {[ "Expires" := [exampleDate] ]}.

Definition headerAge (maxAge age : string) : http_Header :=
  {[ "Cache-Control" := ["max-age=" ++ maxAge]; "Age" := [age];
     "Date" := [exampleDate] ]}.

Definition headerTwoEquals : http_Header :=
  {[ "Cache-Control" := ["no-store, max-age=1=2"] ]}.

Definition headerRepeated : http_Header :=
  {[ "Cache-Control" := ["max-age=10, public"; " max-age=20 "] ]}.

Definition exampleRequest : Request :=
  {| Method := "GET"; URL := "http://example.com"; Request_Header := ∅ |}.

Definition responseWith (status : Z) (h : http_Header) : Response :=
  {| StatusCode := status; Header := h; Body := "" |}.

(** The stored entry of the transport tests: stale at once, with an entity
    tag. *)
Definition storedEtag123 : Response :=
  responseWith 200
    {[ "Cache-Control" := ["max-age=0"]; "Date" := [exampleDate];
       "Etag" := ["123"] ]}.

Definition originEtag345 : Response :=
  responseWith 200 {[ "Etag" := ["345"] ]}.

Definition cacheableResponse : Response :=
  responseWith 200 (headerMaxAge "100").

Definition originAnswers (response : Response) : RoundTripper :=
  fun _ _ => inr response.

Definition originFails (msg : string) : RoundTripper :=
  fun _ _ => inl (TransportError msg).

Definition worldWith (entries : gmap string Response) : World :=
  {| storage := entries; journal := []; sent := [] |}.

Definition exampleKey : string := "GET http://example.com".

(** A world whose storage holds one entry, under the key of the example
    request. *)
Definition worldHolding (stored : Response) : World :=
  worldWith {[ exampleKey := stored ]}.

(** One minute after [exampleDate]. *)
Definition laterClock : Clock := clockAt (exampleInstant + 60 * Second).

(** The answer of an origin that confirms the stored entry. *)
Definition notModified : Response := responseWith StatusNotModified ∅.

(** ** Derived notions used by the further properties *)

(** [strings.Join(l, sep)] for a separator of one byte. *)
Fixpoint Join (sep : ascii) (l : list string) : string :=
  match l with
  | [] => EmptyString
  | x :: l' =>
      match l' with
      | [] => x
      | _ :: _ => (x ++ String sep (Join sep l'))%string
      end
  end.

(** The tokens of all the Cache-Control values of a header, in order. *)
Definition directiveTokens (h : http_Header) : list string :=
  concat (map tokens_spec (occurrences h)).

(** What a Fresh hit hands to the caller. *)
Definition hitResponse (response : Response) : Response :=
  {| StatusCode := StatusCode response;
     Header := withCacheHitHeader (Header response);
     Body := Body response |}.

(** An option of the package: [WithClock] or [CachePrivateResponse]. *)
Definition isPackageOption (o : TransportOption) : Prop :=
  (exists c, o = WithClock c) \/ (exists v, o = CachePrivateResponse v).

Section WebcacheDerived.

Context {ext : Externals}.

(** The four guards of the miss path of [RoundTrip], in one condition. *)
Definition storableOnMiss (t : Transport) (cc : CacheControl) : bool :=
  IsPresent cc && negb (NoStore cc)
  && negb (NoCache cc || NoCacheEquivalent cc)
  && (negb (Private cc) || shouldCachePrivateResponses t).

End WebcacheDerived.

(** A response with an Expires and a Date and no Cache-Control. *)
Definition headerExpires (expires date : string) : http_Header :=
  {[ "Expires" := [expires]; "Date" := [date] ]}.

(** The stored entry of the no-store test. *)
Definition storedNoStore : Response :=
  responseWith 200
    {[ "Cache-Control" := ["max-age=0, no-store"]; "Date" := [exampleDate];
       "Etag" := ["123"] ]}.

(** A Cache-Control value whose only token holds two [=]. *)
Definition headerMalformed : http_Header :=
  {[ "Cache-Control" := ["a=b=c"]; "Date" := [exampleDate] ]}.

(** ** The miss path as the specification words it

    "skip storing if no cache-control header is present at all, if
    [NoStore()], if [NoCache()]/[NoCacheEquivalent()] holds, or if the
    response is [Private()] and private responses are not explicitly enabled
    by configuration; otherwise store". *)



Section MissPath.

Context {ext : Externals}.



End MissPath.

(** No-break space, [U+00A0], in UTF-8. *)
Definition noBreakSpace : string :=
  String (ascii_of_nat 194) (String (ascii_of_nat 160) EmptyString).

(** Em space, [U+2003], in UTF-8. *)
Definition emSpace : string :=
  String (ascii_of_nat 226)
    (String (ascii_of_nat 128) (String (ascii_of_nat 131) EmptyString)).

(** Zero width space, [U+200B], in UTF-8: no white space for
    [unicode.IsSpace]. *)
Definition zeroWidthSpace : string :=
  String (ascii_of_nat 226)
    (String (ascii_of_nat 128) (String (ascii_of_nat 139) EmptyString)).

(** A Cache-Control value that starts with a no-break space. *)
Definition headerNoBreakSpace : http_Header :=
  {[ "Cache-Control" := [(noBreakSpace ++ "max-age=5")%string] ]}.

(** * Properties *)

Section Properties.

Context {ext : Externals}.

(** ** Strings *)

Lemma Split_not_nil sep s : Split sep s <> [].
Proof.
  destruct s as [|c s]; simpl; [discriminate|].
  destruct (Ascii.eqb c sep); [discriminate|].
  destruct (Split sep s); discriminate.
Qed.

Lemma Split_length sep s : length (Split sep s) = S (countByte sep s).
Proof.
  induction s as [|c s IH]; simpl; [reflexivity|].
  destruct (Ascii.eqb c sep); simpl; [now rewrite IH|].
  destruct (Split sep s) as [|p ps] eqn:E; simpl in *; [discriminate|].
  exact IH.
Qed.

Lemma Split_no_sep sep s :
  countByte sep s = O -> Split sep s = [s] /\ cutFirst sep s = (s, None).
Proof.
  induction s as [|c s IH]; simpl; [now split|].
  destruct (Ascii.eqb c sep); [discriminate|].
  intros H. destruct (IH H) as [-> ->]. now split.
Qed.

Lemma Split_one_sep sep s :
  countByte sep s = 1%nat ->
  exists name value,
    Split sep s = [name; value] /\ cutFirst sep s = (name, Some value).
Proof.
  induction s as [|c s IH]; simpl; [discriminate|].
  destruct (Ascii.eqb c sep).
  - intros H. injection H as H.
    destruct (Split_no_sep sep s H) as [-> _].
    exists EmptyString, s. now split.
  - intros H. destruct (IH H) as (name & value & -> & ->).
    exists (String c name), value. now split.
Qed.

(** ** White space and trimming *)

Lemma string_length_ind (P : string -> Prop) :
  (forall s, (forall t, (String.length t < String.length s)%nat -> P t)
             -> P s) ->
  forall s, P s.
Proof.
  intros H s.
  assert (Hn : forall n t, (String.length t < n)%nat -> P t).
  { induction n as [|n IH]; intros t Ht; [lia|].
    apply H. intros u Hu. apply IH. lia. }
  apply (Hn (S (String.length s))). lia.
Qed.

Lemma isSpace_inv c : isSpace c = true -> byteOf c < 128.
Proof. unfold isSpace, byteOf. lia. Qed.

Lemma isSpace2_inv a b :
  isSpace2 a b = true -> byteOf a = 194 /\ 128 <= byteOf b < 192.
Proof. unfold isSpace2. lia. Qed.

Lemma isSpace3_inv a b c :
  isSpace3 a b c = true ->
  225 <= byteOf a <= 227 /\ 128 <= byteOf b < 192 /\ 128 <= byteOf c < 192.
Proof. unfold isSpace3. lia. Qed.

Lemma isSpace_high c : 128 <= byteOf c -> isSpace c = false.
Proof.
  intros H. destruct (isSpace c) eqn:E; [|reflexivity].
  apply isSpace_inv in E. lia.
Qed.

Lemma isSpace2_other a b : byteOf a <> 194 -> isSpace2 a b = false.
Proof.
  intros H. destruct (isSpace2 a b) eqn:E; [|reflexivity].
  apply isSpace2_inv in E. lia.
Qed.

Lemma isSpace3_other a b c :
  ~ 225 <= byteOf a <= 227 -> isSpace3 a b c = false.
Proof.
  intros H. destruct (isSpace3 a b c) eqn:E; [|reflexivity].
  apply isSpace3_inv in E. lia.
Qed.

(** A continuation byte starts no white-space rune. *)
Lemma isSpaceRune_continuation c s :
  128 <= byteOf c < 192 -> isSpaceRune (String c s) = false.
Proof.
  intros H. destruct s as [|c2 [|c3 [|c4 s]]]; cbn [isSpaceRune].
  - apply isSpace_high. lia.
  - apply isSpace2_other. lia.
  - apply isSpace3_other. lia.
  - reflexivity.
Qed.

Lemma plainByte_space sep c :
  plainByte sep = true -> isSpace c = true -> Ascii.eqb c sep = false.
Proof.
  unfold plainByte. intros Hsep Hc.
  destruct (Ascii.eqb c sep) eqn:E; [|reflexivity].
  apply Ascii.eqb_eq in E. subst c. rewrite Hc in Hsep.
  now rewrite andb_false_r in Hsep.
Qed.

Lemma plainByte_high sep c :
  plainByte sep = true -> 128 <= byteOf c -> Ascii.eqb c sep = false.
Proof.
  unfold plainByte. intros Hsep Hc.
  destruct (Ascii.eqb c sep) eqn:E; [|reflexivity].
  apply Ascii.eqb_eq in E. subst c. lia.
Qed.

Lemma isSpaceRune_length e :
  isSpaceRune e = true -> (0 < String.length e)%nat.
Proof. destruct e; [discriminate|simpl; lia]. Qed.

Lemma isSpaceRune_no_sep sep e :
  plainByte sep = true -> isSpaceRune e = true -> countByte sep e = O.
Proof.
  intros Hsep.
  destruct e as [|c1 [|c2 [|c3 [|c4 e]]]]; cbn [isSpaceRune countByte];
    try discriminate; intros He.
  - now rewrite (plainByte_space _ _ Hsep He).
  - apply isSpace2_inv in He.
    rewrite !(plainByte_high sep) by (assumption || lia). reflexivity.
  - apply isSpace3_inv in He.
    rewrite !(plainByte_high sep) by (assumption || lia). reflexivity.
Qed.

Lemma append_nil_l y : EmptyString ++ y = y.
Proof. reflexivity. Qed.

Lemma append_cons c x y : String c x ++ y = String c (x ++ y).
Proof. reflexivity. Qed.

Lemma append_assoc x y z : (x ++ y) ++ z = x ++ (y ++ z).
Proof.
  induction x as [|c x IH]; [reflexivity|].
  rewrite !append_cons. now rewrite IH.
Qed.

Lemma countByte_app sep x y :
  countByte sep (x ++ y) = (countByte sep x + countByte sep y)%nat.
Proof.
  induction x as [|c x IH]; [reflexivity|].
  rewrite append_cons. cbn [countByte]. rewrite IH.
  destruct (Ascii.eqb c sep); lia.
Qed.

Lemma Split_app_no_sep sep e x :
  countByte sep e = O ->
  Split sep (e ++ x)
  = match Split sep x with
    | p :: ps => (e ++ p) :: ps
    | [] => []
    end.
Proof.
  induction e as [|c e IH]; rewrite ?append_cons, ?append_nil_l; cbn [countByte Split].
  - intros _. now destruct (Split sep x).
  - destruct (Ascii.eqb c sep); [discriminate|].
    intros H. rewrite (IH H).
    destruct (Split sep x) as [|p ps] eqn:E; [now apply Split_not_nil in E|].
    reflexivity.
Qed.

(** *** Trimming on the left *)

Lemma startsWithSpace_rune e x :
  isSpaceRune e = true -> startsWithSpace (e ++ x) = true.
Proof.
  destruct e as [|c1 [|c2 [|c3 [|c4 e]]]];
    rewrite ?append_cons, ?append_nil_l; cbn [isSpaceRune startsWithSpace]; try discriminate;
    intros ->; now rewrite ?orb_true_r.
Qed.

Lemma startsWithSpace_inv s :
  startsWithSpace s = true ->
  exists e r, s = e ++ r /\ isSpaceRune e = true.
Proof.
  destruct s as [|c1 r1]; [discriminate|]. cbn [startsWithSpace].
  destruct (isSpace c1) eqn:E1.
  { intros _. now exists (String c1 EmptyString), r1. }
  destruct r1 as [|c2 r2]; [discriminate|].
  destruct (isSpace2 c1 c2) eqn:E2.
  { intros _. now exists (String c1 (String c2 EmptyString)), r2. }
  destruct r2 as [|c3 r3]; [discriminate|].
  cbn [orb]. intros E3.
  now exists (String c1 (String c2 (String c3 EmptyString))), r3.
Qed.

Lemma startsWithSpace_prefix x y :
  startsWithSpace (x ++ y) = false -> startsWithSpace x = false.
Proof.
  intros H. destruct (startsWithSpace x) eqn:E; [|reflexivity].
  destruct (startsWithSpace_inv x E) as (e & r & -> & He).
  rewrite <- H. rewrite append_assoc.
  symmetry. now apply startsWithSpace_rune.
Qed.

Lemma trimLeft_rune e x :
  isSpaceRune e = true -> trimLeft (e ++ x) = trimLeft x.
Proof.
  destruct e as [|c1 [|c2 [|c3 [|c4 e]]]];
    rewrite ?append_cons, ?append_nil_l; cbn [isSpaceRune]; try discriminate; intros He.
  - cbn [trimLeft]. now rewrite He.
  - pose proof (isSpace2_inv _ _ He) as Hb.
    cbn [trimLeft]. rewrite isSpace_high by lia. now rewrite He.
  - pose proof (isSpace3_inv _ _ _ He) as Hb.
    cbn [trimLeft]. rewrite isSpace_high by lia.
    rewrite isSpace2_other by lia. now rewrite He.
Qed.

Lemma trimLeft_fixed s : startsWithSpace s = false -> trimLeft s = s.
Proof.
  destruct s as [|c1 r1]; [reflexivity|]. cbn [startsWithSpace trimLeft].
  destruct (isSpace c1); [discriminate|].
  destruct r1 as [|c2 r2]; [reflexivity|].
  destruct (isSpace2 c1 c2); [discriminate|].
  destruct r2 as [|c3 r3]; [reflexivity|].
  cbn [orb]. now intros ->.
Qed.

Lemma append_length x y :
  String.length (x ++ y) = (String.length x + String.length y)%nat.
Proof. induction x as [|c x IH]; simpl; [reflexivity|now rewrite IH]. Qed.

(** The trimmed text is what is left of the text after some prefix. *)
Lemma trimLeft_suffix s : exists a, s = a ++ trimLeft s.
Proof.
  induction s as [s IH] using string_length_ind.
  destruct (startsWithSpace s) eqn:E.
  - destruct (startsWithSpace_inv s E) as (e & r & -> & He).
    rewrite (trimLeft_rune e r He).
    destruct (IH r) as [a Ha].
    { rewrite append_length. pose proof (isSpaceRune_length e He). lia. }
    exists (e ++ a). rewrite append_assoc. now rewrite <- Ha.
  - exists EmptyString. now rewrite (trimLeft_fixed s E).
Qed.

(** *** Trimming on the right *)

Lemma trimRight_cons c s :
  trimRight (String c s)
  = if isSpaceRune (String c (trimRight s)) then EmptyString
    else String c (trimRight s).
Proof. reflexivity. Qed.

Lemma trimRight_prefix s : exists b, s = trimRight s ++ b.
Proof.
  induction s as [|c s [b IH]]; [now exists EmptyString|].
  rewrite trimRight_cons.
  destruct (isSpaceRune (String c (trimRight s))).
  - now exists (String c s).
  - exists b. rewrite ?append_cons, ?append_nil_l. now rewrite <- IH.
Qed.

Lemma trimRight_continuation c x :
  128 <= byteOf c < 192 -> trimRight (String c x) = String c (trimRight x).
Proof.
  intros H. rewrite trimRight_cons.
  now rewrite (isSpaceRune_continuation c _ H).
Qed.

(** A white-space rune before a text is trimmed away exactly when the rest
    of the text is. *)
Lemma trimRight_rune e x :
  isSpaceRune e = true ->
  trimRight (e ++ x)
  = if isEmpty (trimRight x) then EmptyString else e ++ trimRight x.
Proof.
  destruct e as [|c1 [|c2 [|c3 [|c4 e]]]];
    rewrite ?append_cons, ?append_nil_l; cbn [isSpaceRune]; try discriminate; intros He.
  - rewrite trimRight_cons.
    pose proof (isSpace_inv _ He) as Hb.
    destruct (trimRight x) as [|d1 [|d2 [|d3 r]]];
      cbn [isSpaceRune isEmpty].
    + now rewrite He.
    + rewrite isSpace2_other by lia. reflexivity.
    + rewrite isSpace3_other by lia. reflexivity.
    + reflexivity.
  - pose proof (isSpace2_inv _ _ He) as Hb.
    rewrite trimRight_cons, (trimRight_continuation c2) by lia.
    destruct (trimRight x) as [|d1 [|d2 r]];
      cbn [isSpaceRune isEmpty].
    + now rewrite He.
    + rewrite isSpace3_other by lia. reflexivity.
    + reflexivity.
  - pose proof (isSpace3_inv _ _ _ He) as Hb.
    rewrite trimRight_cons, (trimRight_continuation c2),
      (trimRight_continuation c3) by lia.
    destruct (trimRight x) as [|d1 r]; cbn [isSpaceRune isEmpty].
    + now rewrite He.
    + reflexivity.
Qed.

(** Trimming on the left and on the right commute. *)
Lemma trimLeft_trimRight s : trimLeft (trimRight s) = trimRight (trimLeft s).
Proof.
  induction s as [s IH] using string_length_ind.
  destruct (startsWithSpace s) eqn:E.
  - destruct (startsWithSpace_inv s E) as (e & r & -> & He).
    assert (Hr : trimLeft (trimRight r) = trimRight (trimLeft r)).
    { apply IH. rewrite append_length.
      pose proof (isSpaceRune_length e He). lia. }
    rewrite (trimLeft_rune e r He), (trimRight_rune e r He), <- Hr.
    destruct (trimRight r) as [|d r'] eqn:Er; cbn [isEmpty]; [reflexivity|].
    now rewrite (trimLeft_rune e _ He).
  - rewrite (trimLeft_fixed s E).
    apply trimLeft_fixed.
    destruct (trimRight_prefix s) as [b Hb].
    apply (startsWithSpace_prefix _ b). now rewrite <- Hb.
Qed.

Lemma countByte_trimRight_plain sep s :
  plainByte sep = true -> countByte sep (trimRight s) = countByte sep s.
Proof.
  intros Hsep. induction s as [|c s IH]; [reflexivity|].
  rewrite trimRight_cons.
  destruct (isSpaceRune (String c (trimRight s))) eqn:E.
  - apply (isSpaceRune_no_sep sep _ Hsep) in E.
    cbn [countByte] in *. now rewrite <- IH.
  - cbn [countByte]. now rewrite IH.
Qed.

Lemma map_trimRight_Split_trimRight sep s :
  plainByte sep = true ->
  map trimRight (Split sep (trimRight s)) = map trimRight (Split sep s).
Proof.
  intros Hsep. induction s as [|c s IH]; [reflexivity|].
  rewrite trimRight_cons.
  destruct (isSpaceRune (String c (trimRight s))) eqn:E.
  - assert (Hall : trimRight (String c s) = EmptyString)
      by now rewrite trimRight_cons, E.
    assert (Hno : countByte sep (String c s) = O).
    { rewrite <- (countByte_trimRight_plain sep _ Hsep). now rewrite Hall. }
    rewrite (proj1 (Split_no_sep sep _ Hno)). cbn [Split map]. now rewrite Hall.
  - cbn [Split]. destruct (Ascii.eqb c sep); [cbn [map]; now rewrite IH|].
    destruct (Split sep (trimRight s)) as [|p' ps'] eqn:E1;
      [now apply Split_not_nil in E1|].
    destruct (Split sep s) as [|p ps] eqn:E2;
      [now apply Split_not_nil in E2|].
    cbn [map] in IH. injection IH as Hp Hps.
    cbn [map]. rewrite !trimRight_cons, Hp, Hps. reflexivity.
Qed.

Lemma TrimSpace_rune e x :
  isSpaceRune e = true -> TrimSpace (e ++ x) = TrimSpace x.
Proof. intros He. unfold TrimSpace. now rewrite (trimLeft_rune e x He). Qed.

Lemma map_TrimSpace_Split_trimLeft sep s :
  plainByte sep = true ->
  map TrimSpace (Split sep (trimLeft s)) = map TrimSpace (Split sep s).
Proof.
  intros Hsep. induction s as [s IH] using string_length_ind.
  destruct (startsWithSpace s) eqn:E.
  - destruct (startsWithSpace_inv s E) as (e & r & -> & He).
    rewrite (trimLeft_rune e r He), IH.
    2:{ rewrite append_length. pose proof (isSpaceRune_length e He). lia. }
    rewrite (Split_app_no_sep sep e r (isSpaceRune_no_sep sep e Hsep He)).
    destruct (Split sep r) as [|p ps] eqn:E1;
      [now apply Split_not_nil in E1|].
    cbn [map]. now rewrite (TrimSpace_rune e p He).
  - now rewrite (trimLeft_fixed s E).
Qed.

Lemma map_TrimSpace_Split_TrimSpace sep s :
  plainByte sep = true ->
  map TrimSpace (Split sep (TrimSpace s)) = map TrimSpace (Split sep s).
Proof.
  intros Hsep.
  rewrite <- (map_TrimSpace_Split_trimLeft sep s Hsep).
  unfold TrimSpace at 2.
  assert (Hmap : forall l,
             map TrimSpace l = map trimLeft (map trimRight l)).
  { intros l. rewrite map_map. apply map_ext. intros x.
    unfold TrimSpace. now rewrite trimLeft_trimRight. }
  rewrite !Hmap. f_equal.
  now apply map_trimRight_Split_trimRight.
Qed.

(** What is left starts with no white-space rune and ends with none. *)
Lemma trimLeft_no_leading s : startsWithSpace (trimLeft s) = false.
Proof.
  induction s as [s IH] using string_length_ind.
  destruct (startsWithSpace s) eqn:E.
  - destruct (startsWithSpace_inv s E) as (e & r & -> & He).
    rewrite (trimLeft_rune e r He). apply IH.
    rewrite append_length. pose proof (isSpaceRune_length e He). lia.
  - now rewrite (trimLeft_fixed s E).
Qed.

Lemma trimRight_no_trailing s x e :
  trimRight s = x ++ e -> isSpaceRune e = false.
Proof.
  revert x. induction s as [|c s IH]; intros x.
  - destruct x, e; try discriminate. reflexivity.
  - rewrite trimRight_cons.
    destruct (isSpaceRune (String c (trimRight s))) eqn:E.
    + destruct x, e; try discriminate. reflexivity.
    + destruct x as [|d x].
      * rewrite append_nil_l. now intros <-.
      * rewrite append_cons. intros H. injection H as _ H.
        exact (IH x H).
Qed.

Lemma TrimSpace_trimmed s :
  startsWithSpace (TrimSpace s) = false
  /\ forall x e, TrimSpace s = x ++ e -> isSpaceRune e = false.
Proof.
  split.
  - unfold TrimSpace.
    destruct (trimRight_prefix (trimLeft s)) as [b Hb].
    apply (startsWithSpace_prefix _ b). rewrite <- Hb.
    apply trimLeft_no_leading.
  - intros x e. apply trimRight_no_trailing.
Qed.

Lemma plainByte_comma : plainByte ","%char = true.
Proof. reflexivity. Qed.

Lemma countByte_trimLeft sep s :
  (countByte sep (trimLeft s) <= countByte sep s)%nat.
Proof.
  destruct (trimLeft_suffix s) as [a Ha].
  rewrite Ha at 2. rewrite countByte_app. lia.
Qed.

Lemma countByte_trimRight sep s :
  (countByte sep (trimRight s) <= countByte sep s)%nat.
Proof.
  destruct (trimRight_prefix s) as [b Hb].
  rewrite Hb at 2. rewrite countByte_app. lia.
Qed.

Lemma countByte_TrimSpace sep s :
  (countByte sep (TrimSpace s) <= countByte sep s)%nat.
Proof.
  unfold TrimSpace.
  pose proof (countByte_trimRight sep (trimLeft s)).
  pose proof (countByte_trimLeft sep s). lia.
Qed.

(** ** The parser *)

(** One token: the source splits on every [=] and looks at the number of
    pieces; that is the split at the first [=], guarded. *)
Lemma addDirective_guarded cc vvv :
  addDirective cc vvv = recordDirective_guarded cc (TrimSpace vvv).
Proof.
  unfold addDirective, recordDirective_guarded, recordDirective_spec,
    wellFormedToken, directiveName, directiveValue,
    splitCacheControlKeyValue.
  rewrite Split_length.
  destruct (countByte "=" (TrimSpace vvv)) as [|[|n]] eqn:E.
  - destruct (Split_no_sep _ _ E) as [-> ->]. reflexivity.
  - destruct (Split_one_sep _ _ E) as (name & value & -> & ->). reflexivity.
  - reflexivity.
Qed.

Lemma foldl_addDirective cc l :
  foldl addDirective cc l = foldl recordDirective_guarded cc (map TrimSpace l).
Proof.
  revert cc. induction l as [|x l IH]; intros cc; [reflexivity|].
  simpl. now rewrite addDirective_guarded, IH.
Qed.

Lemma addHeaderValues_guarded cc v :
  addHeaderValues cc v
  = foldl recordDirective_guarded cc (concat (map tokens_spec v)).
Proof.
  unfold addHeaderValues. revert cc.
  induction v as [|vv v IH]; intros cc; [reflexivity|].
  cbn [foldl map concat]. rewrite foldl_app, IH. f_equal.
  unfold splitCacheControl, tokens_spec.
  rewrite foldl_addDirective.
  now rewrite (map_TrimSpace_Split_TrimSpace _ _ plainByte_comma).
Qed.

(** The loop over the header map only ever acts on "Cache-Control", so the
    order in which Go visits the keys is immaterial. *)
Lemma newCacheControl_occurrences h :
  newCacheControl h = addHeaderValues ∅ (occurrences h).
Proof.
  unfold newCacheControl, occurrences.
  induction h as [|i x m Hi Hfold IH] using map_first_key_ind.
  - rewrite map_fold_empty, lookup_empty. reflexivity.
  - rewrite (map_fold_insert_first_key _ _ _ _ _ Hi Hfold), IH.
    destruct (String.eqb i "Cache-Control") eqn:E.
    + apply String.eqb_eq in E. subst i.
      rewrite Hi, lookup_insert_eq. reflexivity.
    + apply String.eqb_neq in E. now rewrite lookup_insert_ne.
Qed.

Lemma newCacheControl_guarded_eq h :
  newCacheControl h = newCacheControl_guarded h.
Proof.
  rewrite newCacheControl_occurrences. apply addHeaderValues_guarded.
Qed.

Lemma foldl_guarded_other cc l name :
  (forall t, In t l -> wellFormedToken t = true -> directiveName t <> name) ->
  foldl recordDirective_guarded cc l !! name = cc !! name.
Proof.
  revert cc. induction l as [|t l IH]; intros cc H; [reflexivity|].
  cbn [foldl]. rewrite IH by (intros t' Ht'; apply H; now right).
  unfold recordDirective_guarded.
  destruct (wellFormedToken t) eqn:E; [|reflexivity].
  unfold recordDirective_spec. apply lookup_insert_ne.
  apply H; [now left|exact E].
Qed.

(** ** Machine arithmetic *)

Lemma wrap64_inInt z : inInt z -> wrap64 z = z.
Proof.
  unfold inInt, wrap64, minInt, maxInt, intSize. intros H.
  change (2 ^ (64 - 1)) with 9223372036854775808 in *.
  change (2 ^ 64) with 18446744073709551616.
  rewrite Z.mod_small; lia.
Qed.

Lemma int_sub_inInt a b : inInt (a - b) -> int_sub a b = a - b.
Proof. apply wrap64_inInt. Qed.

(** A max-age of up to 9223372036 seconds (some 292 years) is a
    [time.Duration] without overflow. *)
Lemma int_mul_Second maxAge :
  0 < maxAge <= 9223372036 -> int_mul maxAge Second = maxAge * Second.
Proof.
  intros H. apply wrap64_inInt.
  unfold inInt, minInt, maxInt, intSize, Second.
  change (2 ^ (64 - 1)) with 9223372036854775808. lia.
Qed.

(** Where the difference is an [int], the age rule is the comparison of
    the two numbers. *)
Lemma freshnessFromAge_inInt age maxAge :
  inInt (maxAge - age) ->
  freshnessFromAge age maxAge
  = if age <? maxAge then FreshnessFresh else FreshnessStale.
Proof.
  intros H. unfold freshnessFromAge. rewrite (int_sub_inInt _ _ H).
  destruct (0 <? maxAge - age) eqn:E1, (age <? maxAge) eqn:E2;
    try reflexivity; lia.
Qed.

(** ** The freshness pipeline *)

(** No checker of the chain ever reports an error. *)
Lemma newFreshnerChecker_total clock h cc :
  exists f, newFreshnerChecker clock h cc = inr f.
Proof.
  unfold newFreshnerChecker, noCacheFreshness, ageFreshnessChecker,
    maxAgeFreshnessChecker, expireFreshnessChecker, transparentFreshness.
  repeat match goal with
         | |- context [match ?x with _ => _ end] => destruct x
         end; eauto.
Qed.

Lemma noCacheFreshness_pass next h cc :
  NoCache cc = false -> NoCacheEquivalent cc = false ->
  noCacheFreshness next h cc = next h cc.
Proof. intros H1 H2. unfold noCacheFreshness. now rewrite H1, H2. Qed.

Lemma ageFreshnessChecker_pass next h cc :
  is_err (MaxAge cc) || is_err (ageFromHeader h) = true ->
  ageFreshnessChecker next h cc = next h cc.
Proof.
  unfold ageFreshnessChecker.
  destruct (MaxAge cc); [reflexivity|].
  destruct (ageFromHeader h); [reflexivity|discriminate].
Qed.

Lemma maxAgeFreshnessChecker_pass next clock h cc :
  is_err (MaxAge cc) || is_err (dateFromHeader h) = true ->
  maxAgeFreshnessChecker next clock h cc = next h cc.
Proof.
  unfold maxAgeFreshnessChecker.
  destruct (MaxAge cc); [reflexivity|].
  destruct (dateFromHeader h); [reflexivity|discriminate].
Qed.

Lemma expireFreshnessChecker_pass next h cc :
  is_err (expiresFromHeader h) || is_err (dateFromHeader h) = true ->
  expireFreshnessChecker next h cc = next h cc.
Proof.
  unfold expireFreshnessChecker.
  destruct (expiresFromHeader h); [reflexivity|].
  destruct (dateFromHeader h); [reflexivity|discriminate].
Qed.

(** The age stage decides as soon as both numbers are there. *)
Lemma ageFreshnessChecker_decides next h cc maxAge age :
  MaxAge cc = inr maxAge -> ageFromHeader h = inr age ->
  ageFreshnessChecker next h cc = inr (freshnessFromAge age maxAge).
Proof. intros H1 H2. unfold ageFreshnessChecker. now rewrite H1, H2. Qed.

(** Within the range of [int] the age stage is the rule of the
    specification, whatever the Date header and the clock say. *)
Lemma age_stage_inInt clock h cc maxAge age :
  NoCache cc = false -> NoCacheEquivalent cc = false ->
  MaxAge cc = inr maxAge -> ageFromHeader h = inr age ->
  inInt (maxAge - age) ->
  newFreshnerChecker clock h cc
  = inr (if 0 <? maxAge - age then FreshnessFresh else FreshnessStale).
Proof.
  intros H1 H2 Hm Ha Hr. unfold newFreshnerChecker.
  rewrite (noCacheFreshness_pass _ _ _ H1 H2).
  rewrite (ageFreshnessChecker_decides _ _ _ _ _ Hm Ha).
  unfold freshnessFromAge. now rewrite (int_sub_inInt _ _ Hr).
Qed.

(** C2: when [NoCache()] or [NoCacheEquivalent()] holds, the first stage
    answers Stale whatever comes after it, and so does the whole pipeline,
    for every header (max-age, Age, Date, Expires) and every clock. *)
Theorem noCache_forces_stale clock h cc :
  NoCache cc || NoCacheEquivalent cc = true ->
  (forall next, noCacheFreshness next h cc = inr FreshnessStale)
  /\ newFreshnerChecker clock h cc = inr FreshnessStale.
Proof.
  intros H.
  assert (Hstage : forall next, noCacheFreshness next h cc = inr FreshnessStale).
  { intros next. unfold noCacheFreshness.
    destruct (NoCache cc); [reflexivity|].
    simpl in H. now rewrite H. }
  split; [exact Hstage|apply Hstage].
Qed.

(** C4, amended: when [MaxAge()] succeeds and the Date header is missing or
    unparsable, the max-age/Date stage does not answer Stale: it hands the
    response to the next stage; with no earlier stage applying, the
    Expires/Date stage needs the same Date and the pipeline answers
    Transparent. *)
Theorem maxAge_without_date_delegates clock h cc maxAge :
  MaxAge cc = inr maxAge ->
  is_err (dateFromHeader h) = true ->
  (forall next, maxAgeFreshnessChecker next clock h cc = next h cc)
  /\ (NoCache cc = false -> NoCacheEquivalent cc = false ->
      is_err (ageFromHeader h) = true ->
      newFreshnerChecker clock h cc = inr FreshnesTransparent).
Proof.
  intros Hm Hd. split.
  - intros next. apply maxAgeFreshnessChecker_pass.
    rewrite Hd. apply orb_true_r.
  - intros H1 H2 Ha. unfold newFreshnerChecker.
    rewrite (noCacheFreshness_pass _ _ _ H1 H2).
    rewrite ageFreshnessChecker_pass by (rewrite Ha; apply orb_true_r).
    rewrite maxAgeFreshnessChecker_pass by (rewrite Hd; apply orb_true_r).
    rewrite expireFreshnessChecker_pass by (rewrite Hd; apply orb_true_r).
    reflexivity.
Qed.

(** C5, amended: when [MaxAge()] succeeds, the Date header parses and no
    earlier stage applies, a max-age of zero or less is Stale and so is a
    Date that is the zero time; otherwise, for a max-age of at most
    9223372036 seconds, the answer is Fresh exactly when the clock is not
    after Date + MaxAge seconds and Stale when it is after: at now equal to
    Date + MaxAge the result is Fresh. *)
Theorem maxAge_date_stage clock h cc maxAge date :
  NoCache cc = false -> NoCacheEquivalent cc = false ->
  is_err (ageFromHeader h) = true ->
  MaxAge cc = inr maxAge ->
  dateFromHeader h = inr date ->
  (maxAge <= 0 -> newFreshnerChecker clock h cc = inr FreshnessStale)
  /\ (date = 0 -> newFreshnerChecker clock h cc = inr FreshnessStale)
  /\ (0 < maxAge <= 9223372036 -> date <> 0 ->
      (Now clock <= date + maxAge * Second ->
       newFreshnerChecker clock h cc = inr FreshnessFresh)
      /\ (date + maxAge * Second < Now clock ->
          newFreshnerChecker clock h cc = inr FreshnessStale)).
Proof.
  intros H1 H2 Ha Hm Hd.
  assert (E : newFreshnerChecker clock h cc
              = inr (freshnessFromMaxAge maxAge date clock)).
  { unfold newFreshnerChecker.
    rewrite (noCacheFreshness_pass _ _ _ H1 H2).
    rewrite ageFreshnessChecker_pass by (rewrite Ha; apply orb_true_r).
    unfold maxAgeFreshnessChecker. now rewrite Hm, Hd. }
  rewrite E. unfold freshnessFromMaxAge, Time_IsZero, Time_After, Time_Add.
  repeat split.
  - intros Hle. destruct (maxAge <=? 0) eqn:E0; [reflexivity|lia].
  - intros ->. destruct (maxAge <=? 0); reflexivity.
  - intros Hnow. destruct H as [Hpos Hbound].
    rewrite (int_mul_Second maxAge (conj Hpos Hbound)).
    destruct (maxAge <=? 0) eqn:E0; [lia|].
    destruct (date =? 0) eqn:E1; [lia|].
    destruct (date + maxAge * Second <? Now clock) eqn:E2; [lia|reflexivity].
  - intros Hnow. destruct H as [Hpos Hbound].
    rewrite (int_mul_Second maxAge (conj Hpos Hbound)).
    destruct (maxAge <=? 0) eqn:E0; [reflexivity|].
    destruct (date =? 0) eqn:E1; [reflexivity|].
    destruct (date + maxAge * Second <? Now clock) eqn:E2; [reflexivity|lia].
Qed.

(** C9: with no applicable signal, that is neither [NoCache()] nor
    [NoCacheEquivalent()], a failing [MaxAge()] and an Expires or a Date
    header that does not parse, the pipeline answers Transparent. *)
Theorem no_signal_is_transparent clock h cc :
  NoCache cc = false -> NoCacheEquivalent cc = false ->
  is_err (MaxAge cc) = true ->
  is_err (expiresFromHeader h) || is_err (dateFromHeader h) = true ->
  newFreshnerChecker clock h cc = inr FreshnesTransparent.
Proof.
  intros H1 H2 Hm He. unfold newFreshnerChecker.
  rewrite (noCacheFreshness_pass _ _ _ H1 H2).
  rewrite ageFreshnessChecker_pass by now rewrite Hm.
  rewrite maxAgeFreshnessChecker_pass by now rewrite Hm.
  now rewrite expireFreshnessChecker_pass.
Qed.

(** C10: when the Expires header parses and the Date header is missing or
    unparsable, the Expires/Date stage decides nothing and hands the
    response to the next stage; with no other applicable signal the
    pipeline answers Transparent, neither Fresh nor Stale. *)
Theorem expires_without_date_delegates clock h cc expires :
  expiresFromHeader h = inr expires ->
  is_err (dateFromHeader h) = true ->
  (forall next, expireFreshnessChecker next h cc = next h cc)
  /\ (NoCache cc = false -> NoCacheEquivalent cc = false ->
      is_err (MaxAge cc) || is_err (ageFromHeader h) = true ->
      newFreshnerChecker clock h cc = inr FreshnesTransparent).
Proof.
  intros He Hd.
  assert (Hpass : forall next, expireFreshnessChecker next h cc = next h cc).
  { intros next. apply expireFreshnessChecker_pass.
    rewrite Hd. apply orb_true_r. }
  split; [exact Hpass|].
  intros H1 H2 Hsig. unfold newFreshnerChecker.
  rewrite (noCacheFreshness_pass _ _ _ H1 H2).
  rewrite (ageFreshnessChecker_pass _ _ _ Hsig).
  rewrite maxAgeFreshnessChecker_pass by (rewrite Hd; apply orb_true_r).
  now rewrite Hpass.
Qed.

(** C8, amended: the parser splits each header occurrence on commas, trims
    white space, and splits each token on every [=]: a token without [=]
    is recorded with an empty value, a token with one [=] as the name
    before it and the value after it, a token with two or more [=] is not
    recorded; when a name occurs more than once, the value of its last
    recorded occurrence is the one kept. *)
Theorem newCacheControl_parses h :
  newCacheControl h = newCacheControl_guarded h
  /\ (forall pre token post,
        concat (map tokens_spec (occurrences h)) = (pre ++ token :: post)%list ->
        wellFormedToken token = true ->
        (forall t, In t post -> wellFormedToken t = true ->
                   directiveName t <> directiveName token) ->
        newCacheControl h !! directiveName token
        = Some (directiveValue token))
  /\ (forall token,
        In token (concat (map tokens_spec (occurrences h))) ->
        wellFormedToken token = false ->
        (forall t, In t (concat (map tokens_spec (occurrences h))) ->
                   wellFormedToken t = true ->
                   directiveName t <> directiveName token) ->
        newCacheControl h !! directiveName token = None).
Proof.
  split; [apply newCacheControl_guarded_eq|]. split.
  - intros pre token post Htoks Hwf Hlast.
    rewrite newCacheControl_guarded_eq. unfold newCacheControl_guarded.
    rewrite Htoks, foldl_app. cbn [foldl].
    rewrite (foldl_guarded_other _ _ _ Hlast).
    unfold recordDirective_guarded. rewrite Hwf.
    unfold recordDirective_spec. apply lookup_insert_eq.
  - intros token _ _ Hother.
    rewrite newCacheControl_guarded_eq. unfold newCacheControl_guarded.
    rewrite (foldl_guarded_other _ _ _ Hother). apply lookup_empty.
Qed.

(** ** The transport *)

Lemma NewTransport_checker realClock transport opts :
  freshnessChecker_of (NewTransport realClock transport opts)
  = newFreshnerChecker (clock (NewTransport realClock transport opts)).
Proof. reflexivity. Qed.

(** The validator sends exactly one request, the conditional one. *)
Lemma Validate_sent transport stored r out :
  snd (Validate transport stored r out)
  = (out ++ [conditionalRequest stored r])%list.
Proof.
  unfold Validate, RoundTripper_RoundTrip.
  destruct (transport out (conditionalRequest stored r)) as [e|fresh];
    [reflexivity|].
  destruct (StatusCode fresh =? StatusNotModified); reflexivity.
Qed.

(** A fetch that fails makes the validation fail, with the same error. *)
Lemma Validate_error transport stored r out err :
  transport out (conditionalRequest stored r) = inl err ->
  fst (Validate transport stored r out) = inl err.
Proof.
  intros Hrt. unfold Validate, RoundTripper_RoundTrip. now rewrite Hrt.
Qed.

Lemma isCached_withCacheHitHeader status h body :
  isCached {| StatusCode := status; Header := withCacheHitHeader h;
              Body := body |} = true.
Proof.
  unfold isCached, withCacheHitHeader, Header_Get. cbn [Header].
  now rewrite lookup_insert_eq.
Qed.

(** C1: on a cache hit the transport acts by the classification of the
    stored response.  Fresh: the stored response, tagged as a hit, and the
    world as it was (no fetch, no write).  Stale: the revalidation runs and
    its result, or its error, is what the caller gets; after an error
    nothing is written; else, with [NoStore()] in the directive set of the
    stored response, the one write is the deletion of the entry, which is
    gone afterwards; else a result that carries the marker leaves the
    storage as it was, the entry still in place; else the one write puts
    the result, which has no marker, in the place of the entry.
    Transparent: a plain fetch of the request, and no write. *)
Theorem RoundTrip_cache_hit realClock transport opts r w stored :
  let t := NewTransport realClock transport opts in
  let cc := newCacheControl (Header stored) in
  let key := buildCacheKey r in
  HTTPCache_Get r w = Some stored ->
  exists f,
    newFreshnerChecker (clock t) (Header stored) cc = inr f
    /\ match f with
       | FreshnessFresh =>
           exists hit,
             Transport_RoundTrip t r w = (inr hit, w)
             /\ isCached hit = true
             /\ StatusCode hit = StatusCode stored
             /\ Body hit = Body stored
             /\ Header hit = withCacheHitHeader (Header stored)
       | FreshnessStale =>
           exists res w',
             Transport_RoundTrip t r w = (res, w')
             /\ (res, sent w') = Validate (rt t) stored r (sent w)
             /\ match res with
                | inl _ =>
                    storage w' = storage w /\ journal w' = journal w
                | inr result =>
                    if NoStore cc
                    then storage w' = delete key (storage w)
                         /\ journal w' = (journal w ++ [OpDelete key])%list
                         /\ HTTPCache_Get r w' = None
                    else if isCached result
                    then storage w' = storage w
                         /\ journal w' = journal w
                         /\ HTTPCache_Get r w' = Some stored
                    else storage w' = <[key := result]> (storage w)
                         /\ journal w'
                            = (journal w ++ [OpSet key result])%list
                         /\ HTTPCache_Get r w' = Some result
                         /\ isCached result = false
                end
       | FreshnesTransparent =>
           exists w',
             Transport_RoundTrip t r w = (rt t (sent w) r, w')
             /\ storage w' = storage w
             /\ journal w' = journal w
             /\ sent w' = (sent w ++ [r])%list
       end.
Proof.
  intros t cc key Hhit.
  destruct (newFreshnerChecker_total (clock t) (Header stored) cc)
    as [f Hf].
  exists f. split; [exact Hf|].
  unfold Transport_RoundTrip. rewrite Hhit.
  unfold Transport_roundTripWithCachedResponse.
  change (freshnessChecker_of t) with (newFreshnerChecker (clock t)).
  fold cc. rewrite Hf. destruct f.
  - eexists. split; [reflexivity|].
    split; [apply isCached_withCacheHitHeader|]. now repeat split.
  - destruct (Validate (rt t) stored r (sent w)) as [[err|result] out1].
    + exists (inl err), (withSent w out1). now repeat split.
    + cbv zeta. destruct (NoStore cc).
      * exists (inr result), (HTTPCache_Delete r (withSent w out1)).
        do 4 (split; [reflexivity|]).
        unfold HTTPCache_Get. cbn [HTTPCache_Delete storage].
        apply lookup_delete_eq.
      * destruct (isCached result) eqn:E.
        -- exists (inr result), (withSent w out1). rewrite E.
           do 4 (split; [reflexivity|]). exact Hhit.
        -- exists (inr result), (HTTPCache_Set r result (withSent w out1)).
           rewrite E. do 4 (split; [reflexivity|]).
           split; [|reflexivity].
           unfold HTTPCache_Get. cbn [HTTPCache_Set storage].
           apply lookup_insert_eq.
  - eexists. split; [reflexivity|]. now repeat split.
Qed.


(** C7: on a stale cache hit whose revalidation fetch fails, the error of
    the fetch is what the validation reports and what the caller gets,
    unchanged, and the storage backend sees no Set and no Delete: the
    stored entry is as it was. *)
Theorem revalidation_error_leaves_entry realClock transport opts r w
    stored err :
  let t := NewTransport realClock transport opts in
  HTTPCache_Get r w = Some stored ->
  newFreshnerChecker (clock t) (Header stored)
    (newCacheControl (Header stored)) = inr FreshnessStale ->
  rt t (sent w) (conditionalRequest stored r) = inl err ->
  exists w',
    Transport_RoundTrip t r w = (inl err, w')
    /\ journal w' = journal w
    /\ storage w' = storage w
    /\ HTTPCache_Get r w' = Some stored
    /\ sent w' = (sent w ++ [conditionalRequest stored r])%list.
Proof.
  intros t Hhit Hstale Hrt.
  unfold Transport_RoundTrip. rewrite Hhit.
  unfold Transport_roundTripWithCachedResponse.
  change (freshnessChecker_of t) with (newFreshnerChecker (clock t)).
  rewrite Hstale.
  pose proof (Validate_error (rt t) stored r (sent w) err Hrt) as Herr.
  pose proof (Validate_sent (rt t) stored r (sent w)) as Hsent.
  destruct (Validate (rt t) stored r (sent w)) as [res out1].
  cbn in Herr, Hsent. subst res out1.
  eexists. split; [reflexivity|]. now repeat split.
Qed.

(** ** Further properties of the parser *)

Lemma Join_cons sep x l :
  l <> [] -> Join sep (x :: l) = (x ++ String sep (Join sep l))%string.
Proof. destruct l; [congruence|reflexivity]. Qed.

Lemma Join_String sep c p ps :
  Join sep (String c p :: ps) = String c (Join sep (p :: ps)).
Proof. destruct ps; reflexivity. Qed.

Lemma Join_Split sep s : Join sep (Split sep s) = s.
Proof.
  induction s as [|c s IH]; [reflexivity|].
  cbn [Split]. destruct (Ascii.eqb c sep) eqn:E.
  - apply Ascii.eqb_eq in E. subst c.
    rewrite Join_cons by apply Split_not_nil. now rewrite IH.
  - destruct (Split sep s) as [|p ps] eqn:E1;
      [now apply Split_not_nil in E1|].
    now rewrite Join_String, IH.
Qed.

Lemma Split_pieces_no_sep sep s p :
  In p (Split sep s) -> countByte sep p = O.
Proof.
  revert p. induction s as [|c s IH]; intros p Hp.
  - destruct Hp as [<-|[]]. reflexivity.
  - cbn [Split] in Hp. destruct (Ascii.eqb c sep) eqn:E.
    + destruct Hp as [<-|Hp]; [reflexivity|now apply IH].
    + destruct (Split sep s) as [|q qs] eqn:E1;
        [now apply Split_not_nil in E1|].
      destruct Hp as [<-|Hp].
      * cbn. rewrite E. apply IH. now left.
      * apply IH. now right.
Qed.

Lemma countByte_cutFirst_same sep s :
  countByte sep (fst (cutFirst sep s)) = O
  /\ forall v, snd (cutFirst sep s) = Some v ->
               countByte sep s = S (countByte sep v).
Proof.
  induction s as [|c s [IHn IHv]]; [split; [reflexivity|discriminate]|].
  cbn [cutFirst countByte]. destruct (Ascii.eqb c sep) eqn:E.
  - split; [reflexivity|]. cbn. intros v [= ->]. reflexivity.
  - destruct (cutFirst sep s) as [name value]. cbn in *. rewrite E.
    split; [exact IHn|exact IHv].
Qed.

Lemma countByte_cutFirst_other sep sep' s :
  (countByte sep' (fst (cutFirst sep s)) <= countByte sep' s)%nat
  /\ forall v, snd (cutFirst sep s) = Some v ->
               (countByte sep' v <= countByte sep' s)%nat.
Proof.
  induction s as [|c s [IHn IHv]]; [split; [reflexivity|discriminate]|].
  cbn [cutFirst countByte]. destruct (Ascii.eqb c sep) eqn:E.
  - split; [cbn; lia|]. cbn. intros v [= ->].
    destruct (Ascii.eqb c sep'); lia.
  - destruct (cutFirst sep s) as [name value]. cbn in *.
    destruct (Ascii.eqb c sep'); split; try lia;
      intros v Hv; specialize (IHv v Hv); lia.
Qed.

Lemma directiveTokens_no_comma h token :
  In token (directiveTokens h) -> countByte ","%char token = O.
Proof.
  unfold directiveTokens. intros Hin.
  apply in_concat in Hin as (toks & Htoks & Hin).
  apply in_map_iff in Htoks as (occ & <- & _).
  unfold tokens_spec in Hin. apply in_map_iff in Hin as (p & <- & Hp).
  pose proof (countByte_TrimSpace ","%char p).
  rewrite (Split_pieces_no_sep _ _ _ Hp) in *. lia.
Qed.

Lemma foldl_guarded_lookup cc l k v :
  foldl recordDirective_guarded cc l !! k = Some v ->
  cc !! k = Some v
  \/ exists token, In token l /\ wellFormedToken token = true
                   /\ directiveName token = k /\ directiveValue token = v.
Proof.
  revert cc. induction l as [|t l IH]; intros cc Hl; [now left|].
  cbn [foldl] in Hl. apply IH in Hl as [Hl|(token & Hin & Hrest)].
  - unfold recordDirective_guarded in Hl.
    destruct (wellFormedToken t) eqn:E; [|now left].
    unfold recordDirective_spec in Hl.
    destruct (decide (directiveName t = k)) as [<-|Hne].
    + rewrite lookup_insert_eq in Hl. injection Hl as <-.
      right. exists t. repeat split; [now left|exact E].
    + rewrite lookup_insert_ne in Hl by exact Hne. now left.
  - right. exists token. split; [now right|exact Hrest].
Qed.

Lemma foldl_guarded_empty cc l :
  foldl recordDirective_guarded cc l = ∅ <->
  cc = ∅ /\ forall token, In token l -> wellFormedToken token = false.
Proof.
  revert cc. induction l as [|t l IH]; intros cc; cbn [foldl].
  - split; [intros ->; split; [reflexivity|intros ? []]|now intros [-> _]].
  - rewrite IH. unfold recordDirective_guarded.
    destruct (wellFormedToken t) eqn:E.
    + split.
      * intros [Habs _]. unfold recordDirective_spec in Habs.
        now apply insert_non_empty in Habs.
      * intros [_ Hall]. specialize (Hall t (or_introl eq_refl)). congruence.
    + split.
      * intros [-> Hall]. split; [reflexivity|].
        intros token [<-|Hin]; [exact E|now apply Hall].
      * intros [-> Hall]. split; [reflexivity|].
        intros token Hin. apply Hall. now right.
Qed.

(** X1: the directive set is a function of the values under the key
    "Cache-Control" alone: two headers that agree there are parsed alike,
    whatever else they hold and in whatever order Go visits their keys. *)
Theorem newCacheControl_reads_only_CacheControl (h h' : http_Header) :
  h !! "Cache-Control" = h' !! "Cache-Control" ->
  newCacheControl h = newCacheControl h'.
Proof.
  intros Heq. rewrite !newCacheControl_occurrences.
  unfold occurrences. now rewrite Heq.
Qed.

(** X2: the parser invents nothing: every directive of the set is the name
    and the value, as written, of a token of the header that holds at most
    one [=]. *)
Theorem newCacheControl_sound h k v :
  newCacheControl h !! k = Some v ->
  exists token,
    In token (directiveTokens h) /\ wellFormedToken token = true
    /\ directiveName token = k /\ directiveValue token = v.
Proof.
  rewrite newCacheControl_guarded_eq. unfold newCacheControl_guarded.
  intros Hl. apply foldl_guarded_lookup in Hl as [Hl|Hl]; [|exact Hl].
  now rewrite lookup_empty in Hl.
Qed.

(** X3: the directive set is empty exactly when no token of the header
    holds at most one [=]; in particular when there is no Cache-Control
    value at all. *)
Theorem newCacheControl_empty_iff h :
  newCacheControl h = ∅ <->
  forall token, In token (directiveTokens h) ->
                wellFormedToken token = false.
Proof.
  rewrite newCacheControl_guarded_eq. unfold newCacheControl_guarded.
  rewrite foldl_guarded_empty. fold (directiveTokens h).
  split; [now intros [_ H0]|now split].
Qed.

(** X4: no name and no value of the directive set holds a comma or an
    [=]. *)
Theorem newCacheControl_no_separators h k v :
  newCacheControl h !! k = Some v ->
  countByte ","%char k = O /\ countByte "="%char k = O
  /\ countByte ","%char v = O /\ countByte "="%char v = O.
Proof.
  intros Hl.
  rewrite newCacheControl_guarded_eq in Hl.
  unfold newCacheControl_guarded in Hl. fold (directiveTokens h) in Hl.
  apply foldl_guarded_lookup in Hl as [Hl|(token & Hin & Hwf & <- & <-)];
    [now rewrite lookup_empty in Hl|].
  pose proof (directiveTokens_no_comma _ _ Hin) as Hcomma.
  unfold directiveName, directiveValue, wellFormedToken in *.
  apply Nat.leb_le in Hwf.
  destruct (countByte_cutFirst_same "="%char token) as [Hn Hv].
  destruct (countByte_cutFirst_other "="%char ","%char token) as [Hn' Hv'].
  repeat split; try lia.
  - destruct (snd (cutFirst "=" token)) as [v|]; [|reflexivity].
    specialize (Hv' v eq_refl). cbn. lia.
  - destruct (snd (cutFirst "=" token)) as [v|]; [|reflexivity].
    specialize (Hv v eq_refl). cbn. lia.
Qed.

(** X5: splitting loses nothing: the pieces [splitCacheControl] and
    [splitCacheControlKeyValue] return, joined again with the separator,
    are the trimmed text; there is one piece more than separators, and no
    piece holds the separator. *)
Theorem split_join_roundtrip s :
  Join ","%char (splitCacheControl s) = TrimSpace s
  /\ Join "="%char (splitCacheControlKeyValue s) = TrimSpace s
  /\ length (splitCacheControl s) = S (countByte ","%char (TrimSpace s))
  /\ length (splitCacheControlKeyValue s)
     = S (countByte "="%char (TrimSpace s))
  /\ (forall p, In p (splitCacheControl s) -> countByte ","%char p = O)
  /\ (forall p, In p (splitCacheControlKeyValue s) ->
                countByte "="%char p = O).
Proof.
  unfold splitCacheControl, splitCacheControlKeyValue.
  rewrite !Join_Split, !Split_length.
  repeat split; intros p Hp; exact (Split_pieces_no_sep _ _ _ Hp).
Qed.

(** ** Further properties of the freshness pipeline *)

Lemma Atoi_inInt s n : Atoi s = Some n -> inInt n.
Proof.
  assert (Hrange : forall v w : Z,
             (if (minInt <=? v) && (v <=? maxInt) then Some v else None)
             = Some w -> inInt w).
  { intros v w Hv.
    destruct ((minInt <=? v) && (v <=? maxInt)) eqn:E; [|discriminate].
    injection Hv as <-. apply andb_prop in E as [E1 E2].
    unfold inInt. split; [now apply Z.leb_le|now apply Z.leb_le]. }
  unfold Atoi. destruct s as [|c t]; [discriminate|].
  destruct (Ascii.eqb c "-"); [|destruct (Ascii.eqb c "+")];
    match goal with
    | |- context [isEmpty ?u] => destruct (isEmpty u); [discriminate|]
    end;
    match goal with
    | |- context [parseDigits ?u 0] =>
        destruct (parseDigits u 0); [apply Hrange|discriminate]
    end.
Qed.

Lemma MaxAge_inInt cc maxAge : MaxAge cc = inr maxAge -> inInt maxAge.
Proof.
  unfold MaxAge. destruct (cc !! cacheControlKeyMaxAge); [|discriminate].
  destruct (Atoi s) eqn:E; [|discriminate].
  intros [= <-]. exact (Atoi_inInt _ _ E).
Qed.

Lemma ageFromHeader_inInt h age : ageFromHeader h = inr age -> inInt age.
Proof.
  unfold ageFromHeader. destruct (Atoi (Header_Get h "Age")) eqn:E;
    [|discriminate].
  intros [= <-]. exact (Atoi_inInt _ _ E).
Qed.

Lemma Header_Get_insert_ne (h : http_Header) key key' vs :
  key <> key' -> Header_Get (<[key := vs]> h) key' = Header_Get h key'.
Proof. intros Hne. unfold Header_Get. now rewrite lookup_insert_ne. Qed.

(** The pipeline, stage by stage, as one decision. *)
Lemma newFreshnerChecker_unfold clock h cc :
  newFreshnerChecker clock h cc
  = if NoCache cc || NoCacheEquivalent cc then inr FreshnessStale
    else match MaxAge cc with
         | inr maxAge =>
             match ageFromHeader h with
             | inr age => inr (freshnessFromAge age maxAge)
             | inl _ =>
                 match dateFromHeader h with
                 | inr date => inr (freshnessFromMaxAge maxAge date clock)
                 | inl _ => inr FreshnesTransparent
                 end
             end
         | inl _ =>
             match expiresFromHeader h, dateFromHeader h with
             | inr expires, inr date =>
                 inr (freshnessFromExpire expires date)
             | _, _ => inr FreshnesTransparent
             end
         end.
Proof.
  unfold newFreshnerChecker, noCacheFreshness, ageFreshnessChecker,
    maxAgeFreshnessChecker, expireFreshnessChecker, transparentFreshness.
  destruct (NoCache cc), (NoCacheEquivalent cc), (MaxAge cc),
    (ageFromHeader h), (dateFromHeader h), (expiresFromHeader h);
    reflexivity.
Qed.

(** X6: for a max-age and an Age that are not negative, the age stage is the
    comparison of the two numbers: Fresh exactly when Age < MaxAge, whatever
    the Date, the Expires and the clock say. *)
Theorem age_stage_nonnegative clock h cc maxAge age :
  NoCache cc = false -> NoCacheEquivalent cc = false ->
  MaxAge cc = inr maxAge -> ageFromHeader h = inr age ->
  0 <= maxAge -> 0 <= age ->
  newFreshnerChecker clock h cc
  = inr (if age <? maxAge then FreshnessFresh else FreshnessStale).
Proof.
  intros H1 H2 Hm Ha Hm0 Ha0.
  rewrite newFreshnerChecker_unfold, H1, H2, Hm, Ha. cbn. f_equal.
  apply freshnessFromAge_inInt.
  pose proof (MaxAge_inInt _ _ Hm) as Rm.
  pose proof (ageFromHeader_inInt _ _ Ha) as Ra.
  unfold inInt, minInt, maxInt, intSize in *.
  change (2 ^ (64 - 1)) with 9223372036854775808 in *. lia.
Qed.

(** X7: without a usable max-age the classification compares the Expires
    with the Date of the response itself and never reads the clock: both
    parsing, a zero Expires is Transparent, an Expires before the Date is
    Stale, any other (the two equal as well) is Fresh; one of them missing
    is Transparent. *)
Theorem expires_stage_ignores_clock clock h cc :
  NoCache cc = false -> NoCacheEquivalent cc = false ->
  is_err (MaxAge cc) = true ->
  newFreshnerChecker clock h cc
  = match expiresFromHeader h, dateFromHeader h with
    | inr expires, inr date =>
        inr (if expires =? 0 then FreshnesTransparent
             else if expires <? date then FreshnessStale
             else FreshnessFresh)
    | _, _ => inr FreshnesTransparent
    end.
Proof.
  intros H1 H2 Hm. rewrite newFreshnerChecker_unfold, H1, H2. cbn.
  destruct (MaxAge cc); [|discriminate]. reflexivity.
Qed.

(** X8: time only makes a response older: for one header and directive set,
    a response that is Stale stays Stale at every later reading of the
    clock, and one that is Fresh was Fresh at every earlier reading. *)
Theorem staleness_is_monotone clock clock' h cc :
  Now clock <= Now clock' ->
  (newFreshnerChecker clock h cc = inr FreshnessStale ->
   newFreshnerChecker clock' h cc = inr FreshnessStale)
  /\ (newFreshnerChecker clock' h cc = inr FreshnessFresh ->
      newFreshnerChecker clock h cc = inr FreshnessFresh).
Proof.
  intros Hle. rewrite !newFreshnerChecker_unfold.
  destruct (NoCache cc || NoCacheEquivalent cc); [split; [trivial|discriminate]|].
  destruct (MaxAge cc) as [e1|maxAge]; [now split|].
  destruct (ageFromHeader h) as [e2|age]; [|now split].
  destruct (dateFromHeader h) as [e3|date]; [now split|].
  unfold freshnessFromMaxAge, Time_After.
  destruct (maxAge <=? 0); [now split|].
  destruct (Time_IsZero date); [now split|].
  set (limit := Time_Add date (int_mul maxAge Second)).
  destruct (limit <? Now clock) eqn:E1, (limit <? Now clock') eqn:E2;
    split; trivial; try discriminate; lia.
Qed.

Lemma transparent_clock_free clock clock' h cc :
  newFreshnerChecker clock h cc = inr FreshnesTransparent ->
  newFreshnerChecker clock' h cc = inr FreshnesTransparent.
Proof.
  rewrite !newFreshnerChecker_unfold.
  destruct (NoCache cc || NoCacheEquivalent cc); [trivial|].
  destruct (MaxAge cc) as [e1|maxAge]; [trivial|].
  destruct (ageFromHeader h) as [e2|age]; [|trivial].
  destruct (dateFromHeader h) as [e3|date]; [trivial|].
  unfold freshnessFromMaxAge.
  destruct (maxAge <=? 0); [discriminate|].
  destruct (Time_IsZero date); [discriminate|].
  destruct (Time_After _ _); discriminate.
Qed.

(** X9: as soon as max-age parses, the Expires header has no say: the
    classification is the same with any Expires values put in the header or
    taken out of it. *)
Theorem maxAge_overrides_expires clock (h : http_Header) cc maxAge vs :
  MaxAge cc = inr maxAge ->
  newFreshnerChecker clock (<["Expires" := vs]> h) cc
  = newFreshnerChecker clock h cc
  /\ newFreshnerChecker clock (delete "Expires" h) cc
     = newFreshnerChecker clock h cc.
Proof.
  intros Hm. rewrite !newFreshnerChecker_unfold, Hm.
  unfold ageFromHeader, dateFromHeader, timeFromHeader, Header_Get.
  rewrite !lookup_insert_ne, !lookup_delete_ne by discriminate.
  split; reflexivity.
Qed.

(** X17: a response is never Fresh without a signal that says so: Fresh
    needs a directive set free of [NoCache()] and [NoCacheEquivalent()] and
    either a max-age that parses or an Expires and a Date that both parse. *)
Theorem fresh_needs_signal clock h cc :
  newFreshnerChecker clock h cc = inr FreshnessFresh ->
  NoCache cc = false /\ NoCacheEquivalent cc = false
  /\ (is_err (MaxAge cc) = false
      \/ (is_err (expiresFromHeader h) = false
          /\ is_err (dateFromHeader h) = false)).
Proof.
  rewrite newFreshnerChecker_unfold.
  destruct (NoCache cc), (NoCacheEquivalent cc); cbn; try discriminate.
  destruct (MaxAge cc) as [e1|maxAge]; [|intros _; repeat split; now left].
  destruct (expiresFromHeader h) as [e2|expires]; [discriminate|].
  destruct (dateFromHeader h) as [e3|date]; [discriminate|].
  intros _. repeat split. now right.
Qed.

(** ** Further properties of the transport *)

(** The miss path in one equation: the caller gets the answer of the origin
    as it is, and the response is stored when the four guards allow it. *)
Lemma RoundTrip_miss_eq t r w :
  HTTPCache_Get r w = None ->
  Transport_RoundTrip t r w
  = (rt t (sent w) r,
     match rt t (sent w) r with
     | inr response =>
         if storableOnMiss t (newCacheControl (Header response))
         then HTTPCache_Set r response (withSent w (sent w ++ [r])%list)
         else withSent w (sent w ++ [r])%list
     | inl _ => withSent w (sent w ++ [r])%list
     end).
Proof.
  intros Hmiss. unfold Transport_RoundTrip. rewrite Hmiss.
  unfold RoundTripper_RoundTrip, storableOnMiss.
  destruct (rt t (sent w) r) as [err|response]; [reflexivity|]. cbv zeta.
  destruct (IsPresent _), (NoStore _), (NoCache _), (NoCacheEquivalent _),
    (Private _), (shouldCachePrivateResponses t); reflexivity.
Qed.

Lemma NewTransport_hit_eq realClock transport opts r w stored :
  HTTPCache_Get r w = Some stored ->
  Transport_RoundTrip (NewTransport realClock transport opts) r w
  = match newFreshnerChecker
            (clock (NewTransport realClock transport opts))
            (Header stored) (newCacheControl (Header stored)) with
    | inl err => (inl err, w)
    | inr FreshnessFresh => (inr (hitResponse stored), w)
    | inr FreshnessStale =>
        let '(res, out1) :=
          Validate (rt (NewTransport realClock transport opts)) stored r
            (sent w) in
        match res with
        | inl err => (inl err, withSent w out1)
        | inr response =>
            if NoStore (newCacheControl (Header stored))
            then (inr response, HTTPCache_Delete r (withSent w out1))
            else if isCached response then (inr response, withSent w out1)
            else (inr response, HTTPCache_Set r response (withSent w out1))
        end
    | inr FreshnesTransparent =>
        (rt (NewTransport realClock transport opts) (sent w) r,
         withSent w (sent w ++ [r])%list)
    end.
Proof.
  intros Hhit. unfold Transport_RoundTrip. rewrite Hhit. reflexivity.
Qed.

(** X10: a round trip that ends in an error has written nothing: the
    storage and the record of its writes are what they were, on every path
    (failed fetch on a miss, failed revalidation, failed fetch for a
    Transparent entry). *)
Theorem RoundTrip_error_never_writes t r w err w' :
  Transport_RoundTrip t r w = (inl err, w') ->
  storage w' = storage w /\ journal w' = journal w.
Proof.
  unfold Transport_RoundTrip, Transport_roundTripWithCachedResponse.
  destruct (HTTPCache_Get r w) as [stored|].
  - destruct (freshnessChecker_of t _ _) as [e|[| |]].
    + intros [= _ <-]. now split.
    + discriminate.
    + destruct (Validate _ _ _ _) as [[e|result] out1]; cbv zeta.
      * intros [= _ <-]. now split.
      * destruct (NoStore _); [discriminate|].
        destruct (isCached result); discriminate.
    + destruct (RoundTripper_RoundTrip _ _ _) as [res out1].
      intros [= _ <-]. now split.
  - destruct (RoundTripper_RoundTrip _ _ _) as [[e|response] out1];
      cbv zeta.
    + intros [= _ <-]. now split.
    + destruct (negb (IsPresent _)); [discriminate|].
      destruct (NoStore _); [discriminate|].
      destruct (NoCache _ || NoCacheEquivalent _); [discriminate|].
      destruct (negb _ && Private _); discriminate.
Qed.

(** X11: a round trip writes the storage at most once and only under the
    cache key of its own request: either nothing is written, or one Set, or
    one Delete, of that key; every other entry is left as it was. *)
Theorem RoundTrip_writes_own_key_once t r w :
  let w' := snd (Transport_RoundTrip t r w) in
  ((storage w' = storage w /\ journal w' = journal w)
   \/ (exists v,
         storage w' = <[buildCacheKey r := v]> (storage w)
         /\ journal w' = (journal w ++ [OpSet (buildCacheKey r) v])%list)
   \/ (storage w' = delete (buildCacheKey r) (storage w)
       /\ journal w' = (journal w ++ [OpDelete (buildCacheKey r)])%list))
  /\ forall key, key <> buildCacheKey r ->
                 storage w' !! key = storage w !! key.
Proof.
  cbv zeta.
  assert (Hcases :
    (storage (snd (Transport_RoundTrip t r w)) = storage w
     /\ journal (snd (Transport_RoundTrip t r w)) = journal w)
    \/ (exists v,
          storage (snd (Transport_RoundTrip t r w))
          = <[buildCacheKey r := v]> (storage w)
          /\ journal (snd (Transport_RoundTrip t r w))
             = (journal w ++ [OpSet (buildCacheKey r) v])%list)
    \/ (storage (snd (Transport_RoundTrip t r w))
        = delete (buildCacheKey r) (storage w)
        /\ journal (snd (Transport_RoundTrip t r w))
           = (journal w ++ [OpDelete (buildCacheKey r)])%list)).
  { unfold Transport_RoundTrip, Transport_roundTripWithCachedResponse.
    destruct (HTTPCache_Get r w) as [stored|].
    - destruct (freshnessChecker_of t _ _) as [e|[| |]];
        [left; now split|left; now split| |].
      + destruct (Validate _ _ _ _) as [[e|result] out1]; cbv zeta;
          [left; now split|].
        destruct (NoStore _); [right; right; now split|].
        destruct (isCached result); [left; now split|].
        right; left. exists result. now split.
      + destruct (RoundTripper_RoundTrip _ _ _) as [res out1].
        left; now split.
    - destruct (RoundTripper_RoundTrip _ _ _) as [[e|response] out1];
        cbv zeta; [left; now split|].
      destruct (negb (IsPresent _)); [left; now split|].
      destruct (NoStore _); [left; now split|].
      destruct (NoCache _ || NoCacheEquivalent _); [left; now split|].
      destruct (negb _ && Private _); [left; now split|].
      right; left. exists response. now split. }
  split; [exact Hcases|].
  intros key Hne.
  destruct Hcases as [[-> _]|[(v & -> & _)|[-> _]]];
    [reflexivity|now apply lookup_insert_ne|now apply lookup_delete_ne].
Qed.

(** X12: on a cache miss the caller gets exactly what the origin answers to
    the request as it came, response or error, and one request went out. *)
Theorem miss_returns_origin_answer t r w :
  HTTPCache_Get r w = None ->
  fst (Transport_RoundTrip t r w) = rt t (sent w) r
  /\ sent (snd (Transport_RoundTrip t r w)) = (sent w ++ [r])%list.
Proof.
  intros Hmiss. rewrite (RoundTrip_miss_eq t r w Hmiss). cbn [fst snd].
  split; [reflexivity|].
  destruct (rt t (sent w) r) as [e|response]; [reflexivity|].
  destruct (storableOnMiss _ _); reflexivity.
Qed.

(** X13: store, then serve: after a miss that stored the response, a round
    trip for a request with the same cache key, at a reading of the clock
    where the response is Fresh, returns the stored response tagged as a hit
    and neither fetches nor writes. *)
Theorem stored_then_served_fresh realClock transport opts
    realClock2 transport2 opts2 r r2 w response :
  let t := NewTransport realClock transport opts in
  let t2 := NewTransport realClock2 transport2 opts2 in
  let cc := newCacheControl (Header response) in
  HTTPCache_Get r w = None ->
  rt t (sent w) r = inr response ->
  storableOnMiss t cc = true ->
  buildCacheKey r2 = buildCacheKey r ->
  newFreshnerChecker (clock t2) (Header response) cc = inr FreshnessFresh ->
  Transport_RoundTrip t2 r2 (snd (Transport_RoundTrip t r w))
  = (inr (hitResponse response), snd (Transport_RoundTrip t r w))
  /\ isCached (hitResponse response) = true.
Proof.
  intros t t2 cc Hmiss Hrt Hstore Hkey Hfresh.
  rewrite (RoundTrip_miss_eq t r w Hmiss), Hrt. fold cc. rewrite Hstore.
  cbn [snd]. split; [|apply isCached_withCacheHitHeader].
  unfold t2. rewrite (NewTransport_hit_eq _ _ _ _ _ response).
  - fold t2. fold cc. now rewrite Hfresh.
  - unfold HTTPCache_Get, HTTPCache_Set. cbn [storage].
    rewrite Hkey. apply lookup_insert_eq.
Qed.

(** X14: a stale entry whose directive set says [NoStore()] is served once
    more and deleted; the next round trip for the request finds nothing and
    returns what the origin answers to the plain request. *)
Theorem no_store_entry_deleted_then_missed realClock transport opts t2 r w
    stored result out1 :
  let t := NewTransport realClock transport opts in
  let cc := newCacheControl (Header stored) in
  HTTPCache_Get r w = Some stored ->
  newFreshnerChecker (clock t) (Header stored) cc = inr FreshnessStale ->
  NoStore cc = true ->
  Validate (rt t) stored r (sent w) = (inr result, out1) ->
  fst (Transport_RoundTrip t r w) = inr result
  /\ HTTPCache_Get r (snd (Transport_RoundTrip t r w)) = None
  /\ journal (snd (Transport_RoundTrip t r w))
     = (journal w ++ [OpDelete (buildCacheKey r)])%list
  /\ fst (Transport_RoundTrip t2 r (snd (Transport_RoundTrip t r w)))
     = rt t2 (sent (snd (Transport_RoundTrip t r w))) r.
Proof.
  intros t cc Hhit Hstale Hns Hval.
  assert (E : Transport_RoundTrip t r w
              = (inr result, HTTPCache_Delete r (withSent w out1))).
  { unfold t. rewrite (NewTransport_hit_eq _ _ _ _ _ stored Hhit).
    fold t. fold cc. rewrite Hstale, Hval. now rewrite Hns. }
  rewrite E. cbn [fst snd].
  assert (Hgone : HTTPCache_Get r (HTTPCache_Delete r (withSent w out1))
                  = None).
  { unfold HTTPCache_Get, HTTPCache_Delete. cbn [storage].
    apply lookup_delete_eq. }
  repeat split; [exact Hgone|].
  now rewrite (RoundTrip_miss_eq t2 r _ Hgone).
Qed.

(** X15: an entry that is Transparent is never refreshed: the round trip
    fetches the plain request, hands on what the origin answers and leaves
    the entry in place, so that the next round trip for it, by any transport
    on this storage and at any reading of the clock, does the same. *)
Theorem transparent_entry_never_refreshed realClock transport opts
    realClock2 transport2 opts2 r w stored :
  let t := NewTransport realClock transport opts in
  let t2 := NewTransport realClock2 transport2 opts2 in
  HTTPCache_Get r w = Some stored ->
  newFreshnerChecker (clock t) (Header stored)
    (newCacheControl (Header stored)) = inr FreshnesTransparent ->
  Transport_RoundTrip t r w
  = (rt t (sent w) r, withSent w (sent w ++ [r])%list)
  /\ HTTPCache_Get r (snd (Transport_RoundTrip t r w)) = Some stored
  /\ Transport_RoundTrip t2 r (snd (Transport_RoundTrip t r w))
     = (rt t2 (sent w ++ [r])%list r,
        withSent w ((sent w ++ [r]) ++ [r])%list).
Proof.
  intros t t2 Hhit Htr.
  assert (E : Transport_RoundTrip t r w
              = (rt t (sent w) r, withSent w (sent w ++ [r])%list)).
  { unfold t. rewrite (NewTransport_hit_eq _ _ _ _ _ stored Hhit).
    fold t. now rewrite Htr. }
  rewrite E. cbn [snd]. split; [reflexivity|]. split; [exact Hhit|].
  unfold t2.
  rewrite (NewTransport_hit_eq _ _ _ _ (withSent w (sent w ++ [r])%list)
             stored Hhit).
  fold t2.
  now rewrite (transparent_clock_free (clock t) (clock t2) _ _ Htr).
Qed.

Lemma foldl_options_rt (t : Transport) opts :
  Forall isPackageOption opts ->
  rt (foldl (fun t o => o t) t opts) = rt t.
Proof.
  intros Hall. revert t.
  induction Hall as [|o opts [[c ->]|[v ->]] _ IH]; intros t;
    [reflexivity| |]; cbn [foldl]; now rewrite IH.
Qed.

Lemma foldl_private_clock (t : Transport) vs :
  clock (foldl (fun t o => o t) t (map CachePrivateResponse vs)) = clock t.
Proof.
  revert t. induction vs as [|v vs IH]; intros t; [reflexivity|].
  cbn [map foldl]. now rewrite IH.
Qed.

Lemma foldl_clock_private (t : Transport) cs :
  shouldCachePrivateResponses (foldl (fun t o => o t) t (map WithClock cs))
  = shouldCachePrivateResponses t.
Proof.
  revert t. induction cs as [|c cs IH]; intros t; [reflexivity|].
  cbn [map foldl]. now rewrite IH.
Qed.

(** X16: the options of [NewTransport] compose in order: the round tripper
    is the one given, whatever options of the package follow; the clock is
    the one of the last [WithClock], the real clock when there is none; the
    caching of private responses is what the last [CachePrivateResponse]
    says, off when there is none; and the checker is always built from the
    clock that results. *)
Theorem NewTransport_options realClock transport opts :
  Forall isPackageOption opts ->
  rt (NewTransport realClock transport opts) = transport
  /\ freshnessChecker_of (NewTransport realClock transport opts)
     = newFreshnerChecker (clock (NewTransport realClock transport opts))
  /\ (forall pre c vs,
        opts = (pre ++ WithClock c :: map CachePrivateResponse vs)%list ->
        clock (NewTransport realClock transport opts) = c)
  /\ (forall vs, opts = map CachePrivateResponse vs ->
                 clock (NewTransport realClock transport opts) = realClock)
  /\ (forall pre v cs,
        opts = (pre ++ CachePrivateResponse v :: map WithClock cs)%list ->
        shouldCachePrivateResponses (NewTransport realClock transport opts)
        = v)
  /\ (forall cs, opts = map WithClock cs ->
                 shouldCachePrivateResponses
                   (NewTransport realClock transport opts) = false).
Proof.
  intros Hall. unfold NewTransport. cbn [rt clock freshnessChecker_of
    shouldCachePrivateResponses].
  split; [now rewrite foldl_options_rt|]. split; [reflexivity|].
  split; [|split; [|split]].
  - intros pre c vs ->. rewrite foldl_app. cbn [foldl].
    now rewrite foldl_private_clock.
  - intros vs ->. now rewrite foldl_private_clock.
  - intros pre v cs ->. rewrite foldl_app. cbn [foldl].
    now rewrite foldl_clock_private.
  - intros cs ->. now rewrite foldl_clock_private.
Qed.

End Properties.

(** * The examples of the tests and of the specification, and concrete
      instances of the properties *)

#[local] Existing Instance exampleExternals.

Example Split_empty : Split ","%char "" = [""].
Proof. reflexivity. Qed.

Example Split_three : Split "="%char "a=b=c" = ["a"; "b"; "c"].
Proof. reflexivity. Qed.

Example TrimSpace_ex : TrimSpace "  max-age=5 " = "max-age=5".
Proof. reflexivity. Qed.

(** White space of more than one byte is trimmed on both sides. *)
Example TrimSpace_unicode :
  TrimSpace (noBreakSpace ++ " max-age=5" ++ emSpace ++ noBreakSpace ++ " ")
  = "max-age=5".
Proof. vm_compute. reflexivity. Qed.

(** White space inside the text stays, and so does a rune that is no white
    space for [unicode.IsSpace]. *)
Example TrimSpace_inner :
  TrimSpace (" a" ++ noBreakSpace ++ "b " ++ zeroWidthSpace)
  = "a" ++ noBreakSpace ++ "b " ++ zeroWidthSpace.
Proof. vm_compute. reflexivity. Qed.

(** Ill-formed UTF-8 is no white space: a continuation byte on its own at
    the start, and the first byte of a rune on its own at the end. *)
Example TrimSpace_ill_formed :
  TrimSpace (String (ascii_of_nat 160) (" a " ++ String (ascii_of_nat 194) ""))
  = String (ascii_of_nat 160) (" a " ++ String (ascii_of_nat 194) "").
Proof. vm_compute. reflexivity. Qed.

Example Atoi_max : Atoi "9223372036854775807" = Some maxInt.
Proof. reflexivity. Qed.

Example Atoi_over : Atoi "9223372036854775808" = None.
Proof. reflexivity. Qed.

Example Atoi_min : Atoi "-9223372036854775808" = Some minInt.
Proof. reflexivity. Qed.

Example Atoi_bad : Atoi "" = None /\ Atoi "-" = None /\ Atoi "1x" = None.
Proof. repeat split; reflexivity. Qed.

Example parseTimeFormat_exampleDate :
  parseTimeFormat exampleDate = Some exampleInstant.
Proof. reflexivity. Qed.

Example parseTimeFormat_zero :
  parseTimeFormat "Mon, 01 Jan 0001 00:00:00 GMT" = Some 0.
Proof. reflexivity. Qed.

Example parseTimeFormat_empty : parseTimeFormat "" = None.
Proof. reflexivity. Qed.

(** [TestFreshnessFromAge]. *)
Example TestFreshnessFromAge :
  freshnessFromAge 100 100 = FreshnessStale
  /\ freshnessFromAge 10 100 = FreshnessFresh
  /\ freshnessFromAge 120 100 = FreshnessStale.
Proof. repeat split; reflexivity. Qed.

(** [TestFreshnessFromMaxAge]: a response dated three, two and one minute
    ago with a max-age of 100 seconds. *)
Example TestFreshnessFromMaxAge :
  let now := clockAt (exampleInstant + 180 * Second) in
  freshnessFromMaxAge 100 exampleInstant now = FreshnessStale
  /\ freshnessFromMaxAge 100 (exampleInstant + 60 * Second) now
     = FreshnessStale
  /\ freshnessFromMaxAge 100 (exampleInstant + 120 * Second) now
     = FreshnessFresh.
Proof. repeat split; reflexivity. Qed.

(** [TestFreshnessFromExpire]. *)
Example TestFreshnessFromExpire :
  freshnessFromExpire exampleInstant (exampleInstant + 300 * Second)
  = FreshnessStale
  /\ freshnessFromExpire exampleInstant (exampleInstant - 300 * Second)
     = FreshnessFresh
  /\ freshnessFromExpire 0 (exampleInstant - 300 * Second)
     = FreshnesTransparent.
Proof. repeat split; reflexivity. Qed.

(** [TestFreshness]: max-age=120 and max-age=40 on a response dated one
    minute ago, and a response with a Date only. *)
Example TestFreshness :
  let now := clockAt (exampleInstant + 60 * Second) in
  newFreshnerChecker now (headerMaxAge "120")
    (newCacheControl (headerMaxAge "120")) = inr FreshnessFresh
  /\ newFreshnerChecker now (headerMaxAge "40")
       (newCacheControl (headerMaxAge "40")) = inr FreshnessStale
  /\ newFreshnerChecker now headerDateOnly (newCacheControl headerDateOnly)
     = inr FreshnesTransparent.
Proof. repeat split; vm_compute; reflexivity. Qed.

(** ** The freshness pipeline at concrete inputs *)

Lemma noCache_forces_stale_witness :
  NoCache (newCacheControl headerNoCache)
  || NoCacheEquivalent (newCacheControl headerNoCache) = true
  /\ freshnessFromMaxAge 120 exampleInstant
       (clockAt (exampleInstant + 60 * Second)) = FreshnessFresh
  /\ newFreshnerChecker (clockAt (exampleInstant + 60 * Second))
       headerNoCache (newCacheControl headerNoCache) = inr FreshnessStale.
Proof.
  split; [vm_compute; reflexivity|]. split; [reflexivity|].
  apply (noCache_forces_stale (clockAt (exampleInstant + 60 * Second))
           headerNoCache (newCacheControl headerNoCache)).
  vm_compute; reflexivity.
Defined.

(** C3: the age stage computes [maxAge-age] in 64-bit arithmetic.  With
    [max-age=-9223372036854775808] and [Age: 1] the difference wraps around
    to the largest [int] and the stored response is classified Fresh,
    although MaxAge - Age is negative; with [max-age=9223372036854775807]
    and [Age: -1] it wraps to the smallest [int] and the response is
    classified Stale, although MaxAge - Age is positive. *)
Theorem age_stage_wraps_around :
  (NoCache (newCacheControl (headerAge "-9223372036854775808" "1")) = false
   /\ NoCacheEquivalent
        (newCacheControl (headerAge "-9223372036854775808" "1")) = false
   /\ MaxAge (newCacheControl (headerAge "-9223372036854775808" "1"))
      = inr minInt
   /\ ageFromHeader (headerAge "-9223372036854775808" "1") = inr 1
   /\ minInt - 1 < 0
   /\ newFreshnerChecker (clockAt exampleInstant)
        (headerAge "-9223372036854775808" "1")
        (newCacheControl (headerAge "-9223372036854775808" "1"))
      = inr FreshnessFresh)
  /\ (NoCache (newCacheControl (headerAge "9223372036854775807" "-1")) = false
      /\ NoCacheEquivalent
           (newCacheControl (headerAge "9223372036854775807" "-1")) = false
      /\ MaxAge (newCacheControl (headerAge "9223372036854775807" "-1"))
         = inr maxInt
      /\ ageFromHeader (headerAge "9223372036854775807" "-1") = inr (-1)
      /\ maxInt - -1 > 0
      /\ newFreshnerChecker (clockAt exampleInstant)
           (headerAge "9223372036854775807" "-1")
           (newCacheControl (headerAge "9223372036854775807" "-1"))
         = inr FreshnessStale).
Proof. repeat split; vm_compute; reflexivity. Qed.

(** The age stage on ordinary numbers, with a Date that alone would say
    Stale (max-age=100, Age 10) and one that alone would say Fresh
    (max-age=100, Age 100): the Age decides. *)
Example age_before_date :
  newFreshnerChecker (clockAt (exampleInstant + 500 * Second))
    (headerAge "100" "10") (newCacheControl (headerAge "100" "10"))
  = inr FreshnessFresh
  /\ freshnessFromMaxAge 100 exampleInstant
       (clockAt (exampleInstant + 500 * Second)) = FreshnessStale
  /\ newFreshnerChecker (clockAt (exampleInstant + 5 * Second))
       (headerAge "100" "100") (newCacheControl (headerAge "100" "100"))
     = inr FreshnessStale
  /\ freshnessFromMaxAge 100 exampleInstant
       (clockAt (exampleInstant + 5 * Second)) = FreshnessFresh.
Proof. repeat split; vm_compute; reflexivity. Qed.

Lemma maxAge_without_date_counterexample :
  NoCache (newCacheControl headerMaxAgeNoDate) = false
  /\ NoCacheEquivalent (newCacheControl headerMaxAgeNoDate) = false
  /\ is_err (ageFromHeader headerMaxAgeNoDate) = true
  /\ MaxAge (newCacheControl headerMaxAgeNoDate) = inr 120
  /\ dateFromHeader headerMaxAgeNoDate = inl ErrorInvalidResponseDate
  /\ maxAgeFreshnessChecker transparentFreshness (clockAt exampleInstant)
       headerMaxAgeNoDate (newCacheControl headerMaxAgeNoDate)
     = inr FreshnesTransparent
  /\ newFreshnerChecker (clockAt exampleInstant) headerMaxAgeNoDate
       (newCacheControl headerMaxAgeNoDate) <> inr FreshnessStale.
Proof. repeat split; try (vm_compute; reflexivity). vm_compute. discriminate. Qed.

Lemma maxAge_without_date_delegates_witness :
  MaxAge (newCacheControl headerMaxAgeNoDate) = inr 120
  /\ is_err (dateFromHeader headerMaxAgeNoDate) = true
  /\ newFreshnerChecker (clockAt exampleInstant) headerMaxAgeNoDate
       (newCacheControl headerMaxAgeNoDate) = inr FreshnesTransparent.
Proof.
  split; [vm_compute; reflexivity|]. split; [vm_compute; reflexivity|].
  refine (proj2 (maxAge_without_date_delegates (clockAt exampleInstant)
                   headerMaxAgeNoDate (newCacheControl headerMaxAgeNoDate)
                   120 _ _) _ _ _);
    vm_compute; reflexivity.
Defined.

Lemma maxAge_date_boundary_counterexample :
  NoCache (newCacheControl (headerMaxAge "60")) = false
  /\ NoCacheEquivalent (newCacheControl (headerMaxAge "60")) = false
  /\ is_err (ageFromHeader (headerMaxAge "60")) = true
  /\ MaxAge (newCacheControl (headerMaxAge "60")) = inr 60
  /\ dateFromHeader (headerMaxAge "60") = inr exampleInstant
  /\ Now (clockAt (exampleInstant + 60 * Second))
     = exampleInstant + 60 * Second
  /\ newFreshnerChecker (clockAt (exampleInstant + 60 * Second))
       (headerMaxAge "60") (newCacheControl (headerMaxAge "60"))
     = inr FreshnessFresh.
Proof. repeat split; vm_compute; reflexivity. Qed.

Lemma maxAge_date_stage_witness :
  NoCache (newCacheControl (headerMaxAge "60")) = false
  /\ NoCacheEquivalent (newCacheControl (headerMaxAge "60")) = false
  /\ is_err (ageFromHeader (headerMaxAge "60")) = true
  /\ MaxAge (newCacheControl (headerMaxAge "60")) = inr 60
  /\ dateFromHeader (headerMaxAge "60") = inr exampleInstant
  /\ newFreshnerChecker (clockAt (exampleInstant + 60 * Second))
       (headerMaxAge "60") (newCacheControl (headerMaxAge "60"))
     = inr FreshnessFresh
  /\ newFreshnerChecker (clockAt (exampleInstant + 60 * Second + 1))
       (headerMaxAge "60") (newCacheControl (headerMaxAge "60"))
     = inr FreshnessStale.
Proof.
  do 5 (split; [vm_compute; reflexivity|]). split.
  - refine (proj1 (proj2 (proj2
              (maxAge_date_stage (clockAt (exampleInstant + 60 * Second))
                 (headerMaxAge "60") (newCacheControl (headerMaxAge "60"))
                 60 exampleInstant _ _ _ _ _)) _ _) _);
      try (vm_compute; reflexivity); try lia;
      try (vm_compute; discriminate).
  - refine (proj2 (proj2 (proj2
              (maxAge_date_stage
                 (clockAt (exampleInstant + 60 * Second + 1))
                 (headerMaxAge "60") (newCacheControl (headerMaxAge "60"))
                 60 exampleInstant _ _ _ _ _)) _ _) _);
      try (vm_compute; reflexivity); try lia;
      try (vm_compute; discriminate).
Defined.

Lemma no_signal_is_transparent_witness :
  NoCache (newCacheControl headerDateOnly) = false
  /\ NoCacheEquivalent (newCacheControl headerDateOnly) = false
  /\ is_err (MaxAge (newCacheControl headerDateOnly)) = true
  /\ is_err (expiresFromHeader headerDateOnly)
     || is_err (dateFromHeader headerDateOnly) = true
  /\ newFreshnerChecker (clockAt exampleInstant) headerDateOnly
       (newCacheControl headerDateOnly) = inr FreshnesTransparent.
Proof.
  do 4 (split; [vm_compute; reflexivity|]).
  apply (no_signal_is_transparent (clockAt exampleInstant) headerDateOnly
           (newCacheControl headerDateOnly));
    vm_compute; reflexivity.
Defined.

Lemma expires_without_date_delegates_witness :
  expiresFromHeader headerExpiresOnly = inr exampleInstant
  /\ is_err (dateFromHeader headerExpiresOnly) = true
  /\ expireFreshnessChecker transparentFreshness headerExpiresOnly
       (newCacheControl headerExpiresOnly) = inr FreshnesTransparent
  /\ newFreshnerChecker (clockAt exampleInstant) headerExpiresOnly
       (newCacheControl headerExpiresOnly) = inr FreshnesTransparent.
Proof.
  do 2 (split; [vm_compute; reflexivity|]). split.
  - refine (proj1 (expires_without_date_delegates (clockAt exampleInstant)
                     headerExpiresOnly (newCacheControl headerExpiresOnly)
                     exampleInstant _ _) transparentFreshness);
      vm_compute; reflexivity.
  - refine (proj2 (expires_without_date_delegates (clockAt exampleInstant)
                     headerExpiresOnly (newCacheControl headerExpiresOnly)
                     exampleInstant _ _) _ _ _);
      vm_compute; reflexivity.
Defined.

(** ** The parser at concrete inputs *)

Lemma split_on_first_equals_counterexample :
  In "max-age=1=2" (concat (map tokens_spec (occurrences headerTwoEquals)))
  /\ cutFirst "="%char "max-age=1=2" = ("max-age", Some "1=2")
  /\ newCacheControl_spec headerTwoEquals !! "max-age" = Some "1=2"
  /\ newCacheControl headerTwoEquals !! "max-age" = None
  /\ newCacheControl headerTwoEquals <> newCacheControl_spec headerTwoEquals.
Proof.
  split; [vm_compute; auto|]. split; [reflexivity|].
  split; [vm_compute; reflexivity|]. split; [vm_compute; reflexivity|].
  intros E.
  assert (E' : newCacheControl headerTwoEquals !! "max-age"
               = newCacheControl_spec headerTwoEquals !! "max-age")
    by now rewrite E.
  vm_compute in E'. discriminate.
Qed.

Lemma newCacheControl_parses_witness :
  concat (map tokens_spec (occurrences headerRepeated))
  = ["max-age=10"; "public"; "max-age=20"]
  /\ newCacheControl headerRepeated = newCacheControl_guarded headerRepeated
  /\ newCacheControl headerRepeated !! "max-age" = Some "20"
  /\ newCacheControl headerRepeated !! "public" = Some "".
Proof.
  split; [vm_compute; reflexivity|].
  split; [exact (proj1 (newCacheControl_parses headerRepeated))|]. split.
  - refine (proj1 (proj2 (newCacheControl_parses headerRepeated))
              ["max-age=10"; "public"] "max-age=20" [] _ _ _).
    + vm_compute; reflexivity.
    + vm_compute; reflexivity.
    + intros t [].
  - refine (proj1 (proj2 (newCacheControl_parses headerRepeated))
              ["max-age=10"] "public" ["max-age=20"] _ _ _).
    + vm_compute; reflexivity.
    + vm_compute; reflexivity.
    + intros t [<-|[]] _. vm_compute. discriminate.
Defined.

(** A no-break space before a token is trimmed like any white space. *)
Example newCacheControl_no_break_space :
  newCacheControl headerNoBreakSpace = {[ "max-age" := "5" ]}
  /\ newCacheControl_guarded headerNoBreakSpace = {[ "max-age" := "5" ]}.
Proof. split; vm_compute; reflexivity. Qed.

(** The directive set of the no-store test: "max-age=0, no-store". *)
Example newCacheControl_no_store :
  newCacheControl {[ "Cache-Control" := ["max-age=0, no-store"] ]}
  = {[ "max-age" := "0"; "no-store" := "" ]}.
Proof. vm_compute. reflexivity. Qed.

(** ** The transport at concrete inputs *)

(** The four outcomes of a hit that touch the storage or leave it: a stale
    entry that forbids storing is deleted; a stale entry the origin
    confirms stays; a stale entry the origin answers anew is replaced; a
    fresh entry is served with no fetch at all. *)
Lemma RoundTrip_cache_hit_witness :
  (HTTPCache_Get exampleRequest (worldHolding storedNoStore)
   = Some storedNoStore
   /\ exists w',
        Transport_RoundTrip
          (NewTransport laterClock (originAnswers originEtag345) [])
          exampleRequest (worldHolding storedNoStore)
        = (inr originEtag345, w')
        /\ storage w' = ∅
        /\ journal w' = [OpDelete exampleKey]
        /\ HTTPCache_Get exampleRequest w' = None)
  /\ (exists w',
        Transport_RoundTrip
          (NewTransport laterClock (originAnswers notModified) [])
          exampleRequest (worldHolding storedEtag123)
        = (inr (hitResponse storedEtag123), w')
        /\ storage w' = {[ exampleKey := storedEtag123 ]}
        /\ journal w' = []
        /\ HTTPCache_Get exampleRequest w' = Some storedEtag123)
  /\ (exists w',
        Transport_RoundTrip
          (NewTransport laterClock (originAnswers originEtag345) [])
          exampleRequest (worldHolding storedEtag123)
        = (inr originEtag345, w')
        /\ storage w' = {[ exampleKey := originEtag345 ]}
        /\ journal w' = [OpSet exampleKey originEtag345]
        /\ HTTPCache_Get exampleRequest w' = Some originEtag345
        /\ isCached originEtag345 = false)
  /\ (exists hit,
        Transport_RoundTrip
          (NewTransport (clockAt exampleInstant) (originFails "unreachable")
             [])
          exampleRequest (worldHolding cacheableResponse)
        = (inr hit, worldHolding cacheableResponse)
        /\ isCached hit = true
        /\ Body hit = Body cacheableResponse).
Proof.
  split; [split; [vm_compute; reflexivity|]|split; [|split]].
  - pose proof (RoundTrip_cache_hit laterClock (originAnswers originEtag345)
                  [] exampleRequest (worldHolding storedNoStore)
                  storedNoStore) as Hhit.
    cbv zeta in Hhit.
    destruct Hhit as (f & Hf & Hact); [vm_compute; reflexivity|].
    assert (Ef : f = FreshnessStale).
    { vm_compute in Hf. now injection Hf as <-. }
    subst f. destruct Hact as (res & w' & Hrt & Hv & Hact).
    assert (Ev : Validate
                   (rt (NewTransport laterClock
                          (originAnswers originEtag345) []))
                   storedNoStore exampleRequest
                   (sent (worldHolding storedNoStore))
                 = (inr originEtag345,
                    [conditionalRequest storedNoStore exampleRequest]))
      by reflexivity.
    rewrite Ev in Hv. injection Hv as -> _.
    assert (En : NoStore (newCacheControl (Header storedNoStore)) = true)
      by (vm_compute; reflexivity).
    rewrite En in Hact. destruct Hact as (Hst & Hj & Hget).
    exists w'. split; [exact Hrt|].
    split; [rewrite Hst; vm_compute; reflexivity|].
    split; [rewrite Hj; reflexivity|exact Hget].
  - pose proof (RoundTrip_cache_hit laterClock (originAnswers notModified)
                  [] exampleRequest (worldHolding storedEtag123)
                  storedEtag123) as Hhit.
    cbv zeta in Hhit.
    destruct Hhit as (f & Hf & Hact); [vm_compute; reflexivity|].
    assert (Ef : f = FreshnessStale).
    { vm_compute in Hf. now injection Hf as <-. }
    subst f. destruct Hact as (res & w' & Hrt & Hv & Hact).
    assert (Ev : Validate
                   (rt (NewTransport laterClock
                          (originAnswers notModified) []))
                   storedEtag123 exampleRequest
                   (sent (worldHolding storedEtag123))
                 = (inr (hitResponse storedEtag123),
                    [conditionalRequest storedEtag123 exampleRequest]))
      by reflexivity.
    rewrite Ev in Hv. injection Hv as -> _.
    assert (En : NoStore (newCacheControl (Header storedEtag123)) = false)
      by (vm_compute; reflexivity).
    rewrite En in Hact.
    assert (Ec : isCached (hitResponse storedEtag123) = true)
      by (vm_compute; reflexivity).
    rewrite Ec in Hact. destruct Hact as (Hst & Hj & Hget).
    exists w'. split; [exact Hrt|].
    split; [rewrite Hst; reflexivity|].
    split; [rewrite Hj; reflexivity|exact Hget].
  - pose proof (RoundTrip_cache_hit laterClock (originAnswers originEtag345)
                  [] exampleRequest (worldHolding storedEtag123)
                  storedEtag123) as Hhit.
    cbv zeta in Hhit.
    destruct Hhit as (f & Hf & Hact); [vm_compute; reflexivity|].
    assert (Ef : f = FreshnessStale).
    { vm_compute in Hf. now injection Hf as <-. }
    subst f. destruct Hact as (res & w' & Hrt & Hv & Hact).
    assert (Ev : Validate
                   (rt (NewTransport laterClock
                          (originAnswers originEtag345) []))
                   storedEtag123 exampleRequest
                   (sent (worldHolding storedEtag123))
                 = (inr originEtag345,
                    [conditionalRequest storedEtag123 exampleRequest]))
      by reflexivity.
    rewrite Ev in Hv. injection Hv as -> _.
    assert (En : NoStore (newCacheControl (Header storedEtag123)) = false)
      by (vm_compute; reflexivity).
    rewrite En in Hact.
    assert (Ec : isCached originEtag345 = false) by reflexivity.
    rewrite Ec in Hact. destruct Hact as (Hst & Hj & Hget & _).
    exists w'. split; [exact Hrt|].
    split; [rewrite Hst; vm_compute; reflexivity|].
    split; [rewrite Hj; reflexivity|]. split; [exact Hget|exact Ec].
  - pose proof (RoundTrip_cache_hit (clockAt exampleInstant)
                  (originFails "unreachable") [] exampleRequest
                  (worldHolding cacheableResponse) cacheableResponse)
      as Hhit.
    cbv zeta in Hhit.
    destruct Hhit as (f & Hf & Hact); [vm_compute; reflexivity|].
    assert (Ef : f = FreshnessFresh).
    { vm_compute in Hf. now injection Hf as <-. }
    subst f. destruct Hact as (hit & Hrt & Hc & _ & Hb & _).
    exists hit. split; [exact Hrt|]. split; [exact Hc|exact Hb].
Defined.



Lemma revalidation_error_leaves_entry_witness :
  HTTPCache_Get exampleRequest (worldWith {[ exampleKey := storedEtag123 ]})
  = Some storedEtag123
  /\ newFreshnerChecker (clockAt (exampleInstant + 60 * Second))
       (Header storedEtag123) (newCacheControl (Header storedEtag123))
     = inr FreshnessStale
  /\ exists w',
       Transport_RoundTrip
         (NewTransport (clockAt (exampleInstant + 60 * Second))
            (originFails "connection refused") [])
         exampleRequest (worldWith {[ exampleKey := storedEtag123 ]})
       = (inl (TransportError "connection refused"), w')
       /\ journal w' = []
       /\ HTTPCache_Get exampleRequest w' = Some storedEtag123.
Proof.
  split; [vm_compute; reflexivity|]. split; [vm_compute; reflexivity|].
  pose proof (revalidation_error_leaves_entry
                (clockAt (exampleInstant + 60 * Second))
                (originFails "connection refused") [] exampleRequest
                (worldWith {[ exampleKey := storedEtag123 ]})
                storedEtag123 (TransportError "connection refused"))
    as Hfail.
  cbv zeta in Hfail.
  destruct Hfail as (w' & Hrt & Hj & _ & Hget & _);
    [vm_compute; reflexivity|vm_compute; reflexivity|reflexivity|].
  exists w'. split; [exact Hrt|]. split; [exact Hj|exact Hget].
Defined.

(** The transport tests.  A stored response that is fresh is served as a
    hit ([TestTransportIfRequestExistsInCache]). *)
Example TestTransportIfRequestExistsInCache :
  fst (Transport_RoundTrip
         (NewTransport (clockAt exampleInstant)
            (originFails "not reached") [])
         exampleRequest
         (worldWith {[ exampleKey := responseWith 200 (headerMaxAge "120") ]}))
  = inr (responseWith 200 (withCacheHitHeader (headerMaxAge "120"))).
Proof. vm_compute. reflexivity. Qed.

(** A stale entry that the origin confirms with "not modified" is served as
    a hit and the request carried the entity tag
    ([TestTransportIfRequestIsStaleWithEtag]). *)
Example TestTransportIfRequestIsStaleWithEtag :
  Transport_RoundTrip
    (NewTransport (clockAt (exampleInstant + 60 * Second))
       (originAnswers (responseWith 304 ∅)) [])
    exampleRequest (worldWith {[ exampleKey := storedEtag123 ]})
  = (inr (responseWith 200 (withCacheHitHeader (Header storedEtag123))),
     {| storage := {[ exampleKey := storedEtag123 ]};
        journal := [];
        sent := [setHeader exampleRequest "If-None-Match" "123"] |}).
Proof. vm_compute. reflexivity. Qed.

(** A changed entity tag: the new response is a miss and replaces the entry
    ([TestTransportIfRequestIsStaleWithEtagChanged]). *)
Example TestTransportIfRequestIsStaleWithEtagChanged :
  Transport_RoundTrip
    (NewTransport (clockAt (exampleInstant + 60 * Second))
       (originAnswers originEtag345) [])
    exampleRequest (worldWith {[ exampleKey := storedEtag123 ]})
  = (inr originEtag345,
     {| storage := {[ exampleKey := originEtag345 ]};
        journal := [OpSet exampleKey originEtag345];
        sent := [setHeader exampleRequest "If-None-Match" "123"] |})
  /\ isCached originEtag345 = false.
Proof. split; vm_compute; reflexivity. Qed.

(** "max-age=0, no-store" confirmed by the origin: served once as a hit,
    then deleted ([TestTransportShouldNotCacheIfNoStoreCacheControlHeader]). *)
Example TestTransportShouldNotCacheIfNoStoreCacheControlHeader :
  Transport_RoundTrip
    (NewTransport (clockAt (exampleInstant + 60 * Second))
       (originAnswers (responseWith 304 ∅)) [])
    exampleRequest
    (worldWith
       {[ exampleKey :=
            responseWith 200
              {[ "Cache-Control" := ["max-age=0, no-store"];
                 "Date" := [exampleDate]; "Etag" := ["123"] ]} ]})
  = (inr (responseWith 200
            (withCacheHitHeader
               {[ "Cache-Control" := ["max-age=0, no-store"];
                  "Date" := [exampleDate]; "Etag" := ["123"] ]})),
     {| storage := ∅;
        journal := [OpDelete exampleKey];
        sent := [setHeader exampleRequest "If-None-Match" "123"] |}).
Proof. vm_compute. reflexivity. Qed.

(** Responses that are not stored on a miss: no Cache-Control at all,
    no-store, no-cache, and "max-age=0, must-revalidate". *)
Example TestRoundTripNoCacheStorage :
  Forall
    (fun h =>
       snd (Transport_RoundTrip
              (NewTransport (clockAt exampleInstant)
                 (originAnswers (responseWith 200 h)) [])
              exampleRequest (worldWith ∅))
       = {| storage := ∅; journal := []; sent := [exampleRequest] |})
    [ ∅;
      {[ "Cache-Control" := ["no-store"] ]};
      {[ "Cache-Control" := ["no-cache"] ]};
      {[ "Cache-Control" := ["max-age=0, must-revalidate"] ]} ].
Proof. repeat constructor; vm_compute; reflexivity. Qed.

(** A response with max-age=100 is stored on the miss and served as a hit by
    the next round trip ([TestRoundTripNoCacheStorageIfCacheControlWithMaxAge]). *)
Example TestRoundTripNoCacheStorageIfCacheControlWithMaxAge :
  let t := NewTransport (clockAt (exampleInstant + 60 * Second))
             (originAnswers cacheableResponse) [] in
  let first := Transport_RoundTrip t exampleRequest (worldWith ∅) in
  let second := Transport_RoundTrip t exampleRequest (snd first) in
  fst first = inr cacheableResponse
  /\ isCached cacheableResponse = false
  /\ storage (snd first) !! exampleKey = Some cacheableResponse
  /\ (exists hit, fst second = inr hit /\ isCached hit = true)
  /\ sent (snd second) = [exampleRequest].
Proof.
  repeat split; try (vm_compute; reflexivity).
  eexists. split; vm_compute; reflexivity.
Qed.

(** A private response is stored only when the transport was built with
    [CachePrivateResponse(true)]. *)
Example private_response_storage :
  storage (snd (Transport_RoundTrip
                  (NewTransport (clockAt exampleInstant)
                     (originAnswers
                        (responseWith 200
                           {[ "Cache-Control" := ["private, max-age=60"] ]}))
                     [])
                  exampleRequest (worldWith ∅))) !! exampleKey = None
  /\ storage (snd (Transport_RoundTrip
                     (NewTransport (clockAt exampleInstant)
                        (originAnswers
                           (responseWith 200
                              {[ "Cache-Control" := ["private, max-age=60"] ]}))
                        [CachePrivateResponse true])
                     exampleRequest (worldWith ∅))) !! exampleKey
     = Some (responseWith 200 {[ "Cache-Control" := ["private, max-age=60"] ]}).
Proof. split; vm_compute; reflexivity. Qed.

(** A stored response without any cache signal is Transparent: the request
    goes to the origin and the storage is left as it was. *)
Example transparent_hit_bypasses_cache :
  Transport_RoundTrip
    (NewTransport (clockAt exampleInstant) (originAnswers originEtag345) [])
    exampleRequest (worldWith {[ exampleKey := responseWith 200 ∅ ]})
  = (inr originEtag345,
     {| storage := {[ exampleKey := responseWith 200 ∅ ]};
        journal := [];
        sent := [exampleRequest] |}).
Proof. vm_compute. reflexivity. Qed.

(** A max-age beyond 9223372036 seconds does not fit a [time.Duration]: the
    product wraps around, here to a negative duration, and the response is
    Stale one second after its Date. *)
Example maxAge_duration_wraps :
  int_mul 9999999999 Second = -8446744074709551616
  /\ newFreshnerChecker (clockAt (exampleInstant + Second))
       (headerMaxAge "9999999999") (newCacheControl (headerMaxAge "9999999999"))
     = inr FreshnessStale.
Proof. split; vm_compute; reflexivity. Qed.

(** ** The further properties at concrete inputs *)

Lemma newCacheControl_reads_only_CacheControl_witness :
  headerMaxAge "60" !! "Cache-Control"
  = headerAge "60" "5" !! "Cache-Control"
  /\ newCacheControl (headerMaxAge "60")
     = newCacheControl (headerAge "60" "5").
Proof.
  split; [vm_compute; reflexivity|].
  apply (newCacheControl_reads_only_CacheControl (headerMaxAge "60")
           (headerAge "60" "5")).
  vm_compute; reflexivity.
Defined.

Lemma newCacheControl_sound_witness :
  newCacheControl headerRepeated !! "max-age" = Some "20"
  /\ exists token,
       In token (directiveTokens headerRepeated)
       /\ wellFormedToken token = true
       /\ directiveName token = "max-age" /\ directiveValue token = "20".
Proof.
  split; [vm_compute; reflexivity|].
  apply (newCacheControl_sound headerRepeated "max-age" "20").
  vm_compute; reflexivity.
Defined.

Lemma newCacheControl_no_separators_witness :
  newCacheControl headerRepeated !! "max-age" = Some "20"
  /\ countByte ","%char "20" = O /\ countByte "="%char "max-age" = O.
Proof.
  split; [vm_compute; reflexivity|].
  destruct (newCacheControl_no_separators headerRepeated "max-age" "20")
    as (_ & Hk & Hv & _); [vm_compute; reflexivity|].
  split; [exact Hv|exact Hk].
Defined.

Lemma age_stage_nonnegative_witness :
  NoCache (newCacheControl (headerAge "100" "10")) = false
  /\ NoCacheEquivalent (newCacheControl (headerAge "100" "10")) = false
  /\ MaxAge (newCacheControl (headerAge "100" "10")) = inr 100
  /\ ageFromHeader (headerAge "100" "10") = inr 10
  /\ newFreshnerChecker (clockAt (exampleInstant + 500 * Second))
       (headerAge "100" "10") (newCacheControl (headerAge "100" "10"))
     = inr FreshnessFresh.
Proof.
  do 4 (split; [vm_compute; reflexivity|]).
  refine (age_stage_nonnegative (clockAt (exampleInstant + 500 * Second))
            (headerAge "100" "10") (newCacheControl (headerAge "100" "10"))
            100 10 _ _ _ _ _ _);
    try (vm_compute; reflexivity); lia.
Defined.

Lemma expires_stage_ignores_clock_witness :
  NoCache (newCacheControl (headerExpires exampleDate exampleDate)) = false
  /\ NoCacheEquivalent
       (newCacheControl (headerExpires exampleDate exampleDate)) = false
  /\ is_err (MaxAge (newCacheControl (headerExpires exampleDate exampleDate)))
     = true
  /\ newFreshnerChecker (clockAt (exampleInstant + 1000000 * Second))
       (headerExpires exampleDate exampleDate)
       (newCacheControl (headerExpires exampleDate exampleDate))
     = inr FreshnessFresh.
Proof.
  do 3 (split; [vm_compute; reflexivity|]).
  etransitivity.
  - refine (expires_stage_ignores_clock
              (clockAt (exampleInstant + 1000000 * Second))
              (headerExpires exampleDate exampleDate)
              (newCacheControl (headerExpires exampleDate exampleDate))
              _ _ _);
      vm_compute; reflexivity.
  - vm_compute; reflexivity.
Defined.

Lemma staleness_is_monotone_witness :
  Now (clockAt (exampleInstant + 61 * Second))
  <= Now (clockAt (exampleInstant + 100 * Second))
  /\ newFreshnerChecker (clockAt (exampleInstant + 61 * Second))
       (headerMaxAge "60") (newCacheControl (headerMaxAge "60"))
     = inr FreshnessStale
  /\ newFreshnerChecker (clockAt (exampleInstant + 100 * Second))
       (headerMaxAge "60") (newCacheControl (headerMaxAge "60"))
     = inr FreshnessStale.
Proof.
  split; [vm_compute; discriminate|].
  split; [vm_compute; reflexivity|].
  refine (proj1 (staleness_is_monotone
                   (clockAt (exampleInstant + 61 * Second))
                   (clockAt (exampleInstant + 100 * Second))
                   (headerMaxAge "60") (newCacheControl (headerMaxAge "60"))
                   _) _);
    [vm_compute; discriminate|vm_compute; reflexivity].
Defined.

Lemma maxAge_overrides_expires_witness :
  MaxAge (newCacheControl (headerMaxAge "60")) = inr 60
  /\ newFreshnerChecker (clockAt (exampleInstant + 10 * Second))
       (<["Expires" := ["Mon, 01 Jan 0001 00:00:00 GMT"]]>
          (headerMaxAge "60"))
       (newCacheControl (headerMaxAge "60"))
     = newFreshnerChecker (clockAt (exampleInstant + 10 * Second))
         (headerMaxAge "60") (newCacheControl (headerMaxAge "60")).
Proof.
  split; [vm_compute; reflexivity|].
  refine (proj1 (maxAge_overrides_expires
                   (clockAt (exampleInstant + 10 * Second))
                   (headerMaxAge "60") (newCacheControl (headerMaxAge "60"))
                   60 ["Mon, 01 Jan 0001 00:00:00 GMT"] _)).
  vm_compute; reflexivity.
Defined.

Lemma fresh_needs_signal_witness :
  newFreshnerChecker (clockAt (exampleInstant + 10 * Second))
    (headerMaxAge "60") (newCacheControl (headerMaxAge "60"))
  = inr FreshnessFresh
  /\ NoCache (newCacheControl (headerMaxAge "60")) = false.
Proof.
  split; [vm_compute; reflexivity|].
  refine (proj1 (fresh_needs_signal
                   (clockAt (exampleInstant + 10 * Second))
                   (headerMaxAge "60") (newCacheControl (headerMaxAge "60"))
                   _)).
  vm_compute; reflexivity.
Defined.

Lemma RoundTrip_error_never_writes_witness :
  Transport_RoundTrip
    (NewTransport (clockAt exampleInstant) (originFails "no route") [])
    exampleRequest (worldWith {[ "other" := cacheableResponse ]})
  = (inl (TransportError "no route"),
     {| storage := {[ "other" := cacheableResponse ]}; journal := [];
        sent := [exampleRequest] |})
  /\ storage {| storage := {[ "other" := cacheableResponse ]}; journal := [];
                sent := [exampleRequest] |}
     = storage (worldWith {[ "other" := cacheableResponse ]}).
Proof.
  split; [vm_compute; reflexivity|].
  refine (proj1 (RoundTrip_error_never_writes
                   (NewTransport (clockAt exampleInstant)
                      (originFails "no route") [])
                   exampleRequest
                   (worldWith {[ "other" := cacheableResponse ]})
                   (TransportError "no route") _ _)).
  vm_compute; reflexivity.
Defined.

Lemma miss_returns_origin_answer_witness :
  HTTPCache_Get exampleRequest (worldWith ∅) = None
  /\ fst (Transport_RoundTrip
            (NewTransport (clockAt exampleInstant)
               (originAnswers cacheableResponse) [])
            exampleRequest (worldWith ∅))
     = inr cacheableResponse.
Proof.
  split; [vm_compute; reflexivity|].
  refine (proj1 (miss_returns_origin_answer
                   (NewTransport (clockAt exampleInstant)
                      (originAnswers cacheableResponse) [])
                   exampleRequest (worldWith ∅) _)).
  vm_compute; reflexivity.
Defined.

Lemma stored_then_served_fresh_witness :
  HTTPCache_Get exampleRequest (worldWith ∅) = None
  /\ storableOnMiss
       (NewTransport (clockAt exampleInstant)
          (originAnswers cacheableResponse) [])
       (newCacheControl (Header cacheableResponse)) = true
  /\ newFreshnerChecker (clockAt (exampleInstant + 60 * Second))
       (Header cacheableResponse)
       (newCacheControl (Header cacheableResponse)) = inr FreshnessFresh
  /\ fst (Transport_RoundTrip
            (NewTransport (clockAt exampleInstant)
               (originFails "not reached")
               [WithClock (clockAt (exampleInstant + 60 * Second))])
            exampleRequest
            (snd (Transport_RoundTrip
                    (NewTransport (clockAt exampleInstant)
                       (originAnswers cacheableResponse) [])
                    exampleRequest (worldWith ∅))))
     = inr (hitResponse cacheableResponse).
Proof.
  do 3 (split; [vm_compute; reflexivity|]).
  pose proof (stored_then_served_fresh (clockAt exampleInstant)
                (originAnswers cacheableResponse) []
                (clockAt exampleInstant) (originFails "not reached")
                [WithClock (clockAt (exampleInstant + 60 * Second))]
                exampleRequest exampleRequest (worldWith ∅)
                cacheableResponse) as Hserve.
  cbv zeta in Hserve.
  destruct Hserve as [Hserve _];
    [vm_compute; reflexivity..|now rewrite Hserve].
Defined.

Lemma no_store_entry_deleted_then_missed_witness :
  HTTPCache_Get exampleRequest (worldWith {[ exampleKey := storedNoStore ]})
  = Some storedNoStore
  /\ NoStore (newCacheControl (Header storedNoStore)) = true
  /\ fst (Transport_RoundTrip
            (NewTransport (clockAt (exampleInstant + 60 * Second))
               (originAnswers (responseWith 304 ∅)) [])
            exampleRequest (worldWith {[ exampleKey := storedNoStore ]}))
     = inr (hitResponse storedNoStore)
  /\ HTTPCache_Get exampleRequest
       (snd (Transport_RoundTrip
               (NewTransport (clockAt (exampleInstant + 60 * Second))
                  (originAnswers (responseWith 304 ∅)) [])
               exampleRequest (worldWith {[ exampleKey := storedNoStore ]})))
     = None.
Proof.
  do 2 (split; [vm_compute; reflexivity|]).
  pose proof (no_store_entry_deleted_then_missed
                (clockAt (exampleInstant + 60 * Second))
                (originAnswers (responseWith 304 ∅)) []
                (NewTransport (clockAt exampleInstant)
                   (originAnswers cacheableResponse) [])
                exampleRequest (worldWith {[ exampleKey := storedNoStore ]})
                storedNoStore (hitResponse storedNoStore)
                [conditionalRequest storedNoStore exampleRequest])
    as Hgone.
  cbv zeta in Hgone.
  destruct Hgone as (Hres & Hget & _);
    [vm_compute; reflexivity..|split; [exact Hres|exact Hget]].
Defined.

Lemma transparent_entry_never_refreshed_witness :
  HTTPCache_Get exampleRequest
    (worldWith {[ exampleKey := responseWith 200 ∅ ]})
  = Some (responseWith 200 ∅)
  /\ newFreshnerChecker (clockAt exampleInstant) (Header (responseWith 200 ∅))
       (newCacheControl (Header (responseWith 200 ∅)))
     = inr FreshnesTransparent
  /\ HTTPCache_Get exampleRequest
       (snd (Transport_RoundTrip
               (NewTransport (clockAt exampleInstant)
                  (originAnswers cacheableResponse) [])
               exampleRequest
               (worldWith {[ exampleKey := responseWith 200 ∅ ]})))
     = Some (responseWith 200 ∅).
Proof.
  do 2 (split; [vm_compute; reflexivity|]).
  pose proof (transparent_entry_never_refreshed (clockAt exampleInstant)
                (originAnswers cacheableResponse) []
                (clockAt (exampleInstant + 60 * Second))
                (originAnswers cacheableResponse) []
                exampleRequest
                (worldWith {[ exampleKey := responseWith 200 ∅ ]})
                (responseWith 200 ∅)) as Hstay.
  cbv zeta in Hstay.
  destruct Hstay as (_ & Hget & _);
    [vm_compute; reflexivity..|exact Hget].
Defined.

Lemma NewTransport_options_witness :
  Forall isPackageOption
    [WithClock (clockAt exampleInstant); CachePrivateResponse true]
  /\ rt (NewTransport (clockAt 0) (originFails "down")
           [WithClock (clockAt exampleInstant); CachePrivateResponse true])
     = originFails "down"
  /\ clock (NewTransport (clockAt 0) (originFails "down")
              [WithClock (clockAt exampleInstant); CachePrivateResponse true])
     = clockAt exampleInstant.
Proof.
  assert (Hopts : Forall isPackageOption
            [WithClock (clockAt exampleInstant); CachePrivateResponse true]).
  { constructor; [left; eexists; reflexivity|].
    constructor; [right; eexists; reflexivity|]. constructor. }
  split; [exact Hopts|].
  destruct (NewTransport_options (clockAt 0) (originFails "down") _ Hopts)
    as (Hrt & _ & Hclock & _).
  split; [exact Hrt|].
  exact (Hclock [] (clockAt exampleInstant) [true] eq_refl).
Defined.

Lemma newCacheControl_empty_iff_witness :
  (forall token, In token (directiveTokens headerMalformed) ->
                 wellFormedToken token = false)
  /\ newCacheControl headerMalformed = ∅
  /\ newCacheControl headerDateOnly = ∅.
Proof.
  assert (Hbad : forall token,
             In token (directiveTokens headerMalformed) ->
             wellFormedToken token = false).
  { intros token Hin. vm_compute in Hin. destruct Hin as [<-|[]].
    reflexivity. }
  split; [exact Hbad|]. split.
  - exact (proj2 (newCacheControl_empty_iff headerMalformed) Hbad).
  - apply (proj2 (newCacheControl_empty_iff headerDateOnly)).
    intros token Hin. vm_compute in Hin. destruct Hin.
Defined.

Lemma split_join_roundtrip_witness :
  Join ","%char (splitCacheControl " max-age=10, public ")
  = "max-age=10, public"
  /\ length (splitCacheControl " max-age=10, public ") = 2%nat.
Proof.
  destruct (split_join_roundtrip " max-age=10, public ")
    as (Hjoin & _ & Hlen & _).
  split; [exact Hjoin|exact Hlen].
Defined.

Lemma RoundTrip_writes_own_key_once_witness :
  "other" <> buildCacheKey exampleRequest
  /\ storage
       (snd (Transport_RoundTrip
               (NewTransport (clockAt exampleInstant)
                  (originAnswers cacheableResponse) [])
               exampleRequest
               (worldWith {[ "other" := originEtag345 ]}))) !! "other"
     = Some originEtag345.
Proof.
  assert (Hne : "other" <> buildCacheKey exampleRequest)
    by (vm_compute; discriminate).
  split; [exact Hne|].
  rewrite (proj2 (RoundTrip_writes_own_key_once
                    (NewTransport (clockAt exampleInstant)
                       (originAnswers cacheableResponse) [])
                    exampleRequest
                    (worldWith {[ "other" := originEtag345 ]}))
             "other" Hne).
  vm_compute; reflexivity.
Defined.
